(** * homebridge-leak-alarm: the acquisition, parse and debounce engine

    A shallow embedding of [pollSensorState] and [pollState] of the
    LeakAlarm accessory (index.js, and the later revision of the same file
    that also tracks [deviceState]), followed by the properties of the
    engine that the specification states.

    Conventions of the embedding.
    - A JavaScript Number is an IEEE-754 binary64 value: Rocq's primitive
      [float], whose operations round exactly as the JavaScript ones do.
    - A JavaScript String is a [string]; each character stands for one code
      unit below 256 (the device reports in ASCII).
    - [sensorData[i]] is the list lookup [sensorData !! i]; [None] is
      JavaScript's [undefined].
    - [accessory.state] is the record [state]; the numeric constants
      LEAK_NOT_DETECTED, LEAK_DETECTED, NO_FAULT and GENERAL_FAULT are the
      constructors of two enumerations.
    - Timers and HTTP callbacks are events of a single-threaded event loop:
      a [machine] holds the armed timers, the requests in flight and the
      [rawData] closure variable of each cycle. *)

From Stdlib Require Import ZArith List String Ascii Floats Bool Lia.
From stdpp Require Import base option list gmap.
Import ListNotations.

Local Open Scope Z_scope.
Local Open Scope string_scope.

(** ** JavaScript strings *)

Module JsString.

(** WhiteSpace and LineTerminator code units below 256: TAB, LF, VT, FF,
    CR, SP and NBSP. *)
Definition isWhiteSpace (c : ascii) : bool :=
  existsb (Nat.eqb (nat_of_ascii c)) [9; 10; 11; 12; 13; 32; 160]%nat.

Fixpoint trimStart (s : string) : string :=
  match s with
  | EmptyString => EmptyString
  | String c r => if isWhiteSpace c then trimStart r else s
  end.

Definition reverse (s : string) : string :=
  string_of_list_ascii (rev (list_ascii_of_string s)).

(** [s.trim()] *)
Definition trim (s : string) : string :=
  reverse (trimStart (reverse (trimStart s))).

Definition CR : ascii := ascii_of_nat 13.
Definition LF : ascii := ascii_of_nat 10.

(** [s.replace(/\r?\n|\r/g, ",")] *)
Fixpoint replaceLineBreaks (s : string) : string :=
  match s with
  | EmptyString => EmptyString
  | String c r =>
      if Ascii.eqb c CR then
        match r with
        | String c2 r2 =>
            if Ascii.eqb c2 LF then String "," (replaceLineBreaks r2)
            else String "," (replaceLineBreaks r)
        | EmptyString => String "," EmptyString
        end
      else if Ascii.eqb c LF then String "," (replaceLineBreaks r)
      else String c (replaceLineBreaks r)
  end.

(** [s.split(",")]: never empty, the empty string gives one empty token. *)
Fixpoint split (s : string) : list string :=
  match s with
  | EmptyString => [EmptyString]
  | String c r =>
      if Ascii.eqb c "," then EmptyString :: split r
      else match split r with
           | t :: ts => String c t :: ts
           | [] => [String c EmptyString]
           end
  end.

(** [s.slice(0, -1)]: the string without its last code unit; the empty
    string stays empty. *)
Definition slice_0_m1 (s : string) : string :=
  string_of_list_ascii (removelast (list_ascii_of_string s)).

End JsString.

(** ** JavaScript numbers and the coercion [+s] of a string *)

Module JsNumber.

Definition digitOf (base : nat) (c : ascii) : option Z :=
  let n := nat_of_ascii c in
  let v :=
    if (48 <=? n)%nat && (n <=? 57)%nat then Some (n - 48)%nat
    else if (97 <=? n)%nat && (n <=? 102)%nat then Some (n - 87)%nat
    else if (65 <=? n)%nat && (n <=? 70)%nat then Some (n - 55)%nat
    else None in
  match v with
  | Some d => if (d <? base)%nat then Some (Z.of_nat d) else None
  | None => None
  end.

(** The longest prefix of digits of the base, and what follows it. *)
Fixpoint spanDigits (base : nat) (l : list ascii) : list Z * list ascii :=
  match l with
  | [] => ([], [])
  | c :: r =>
      match digitOf base c with
      | Some d => let '(ds, rest) := spanDigits base r in (d :: ds, rest)
      | None => ([], l)
      end
  end.

Definition digitsValue (base : Z) (ds : list Z) : Z :=
  fold_left (fun a d => base * a + d) ds 0.

(** The binary64 value nearest to an integer (ties to even). *)
Definition roundInteger (neg : bool) (m : Z) : float :=
  SF2Prim (binary_normalize prec emax (if neg then - m else m) 0 neg).

(** The binary64 value nearest to [num / den], both positive. *)
Definition roundQuotient (neg : bool) (num den : Z) : float :=
  let '(q, e, l) := SFdiv_core_binary prec emax num 0 den 0 in
  SF2Prim (binary_round_aux prec emax neg q e l).

(** The Number value of the decimal [m * 10 ^ e10], [0 <= m]. *)
Definition decimalToNumber (neg : bool) (m e10 : Z) : float :=
  if (m =? 0)%Z then (if neg then neg_zero else zero)
  else if (0 <=? e10)%Z then roundInteger neg (m * 10 ^ e10)
  else roundQuotient neg m (10 ^ (- e10)).

(** ExponentPart, optional, up to the end of the literal. *)
Definition exponentPart (l : list ascii) : option Z :=
  match l with
  | [] => Some 0
  | c :: r =>
      if Ascii.eqb c "e" || Ascii.eqb c "E" then
        let '(neg, r') :=
          match r with
          | s :: r' =>
              if Ascii.eqb s "+" then (false, r')
              else if Ascii.eqb s "-" then (true, r')
              else (false, r)
          | [] => (false, r)
          end in
        match spanDigits 10 r' with
        | ((_ :: _) as ds, []) =>
            Some (if neg then - digitsValue 10 ds else digitsValue 10 ds)
        | _ => None
        end
      else None
  end.

(** StrUnsignedDecimalLiteral. *)
Definition unsignedDecimal (neg : bool) (l : list ascii) : float :=
  if String.eqb (string_of_list_ascii l) "Infinity" then
    (if neg then neg_infinity else infinity)
  else
    let '(ip, r1) := spanDigits 10 l in
    let '(fp, r2) :=
      match r1 with
      | c :: r => if Ascii.eqb c "." then spanDigits 10 r else ([], r1)
      | [] => ([], r1)
      end in
    match (ip ++ fp)%list with
    | [] => nan
    | ds =>
        match exponentPart r2 with
        | Some e => decimalToNumber neg (digitsValue 10 ds) (e - Z.of_nat (length fp))
        | None => nan
        end
    end.

(** NonDecimalIntegerLiteral without its two-character prefix. *)
Definition nonDecimal (base : nat) (l : list ascii) : float :=
  match spanDigits base l with
  | ((_ :: _) as ds, []) => roundInteger false (digitsValue (Z.of_nat base) ds)
  | _ => nan
  end.

(** StringToNumber on a literal already trimmed. *)
Definition strNumericLiteral (l : list ascii) : float :=
  match l with
  | [] => zero
  | c :: r =>
      if Ascii.eqb c "+" then unsignedDecimal false r
      else if Ascii.eqb c "-" then unsignedDecimal true r
      else
        match l with
        | z :: p :: r' =>
            if Ascii.eqb z "0" then
              if Ascii.eqb p "x" || Ascii.eqb p "X" then nonDecimal 16 r'
              else if Ascii.eqb p "o" || Ascii.eqb p "O" then nonDecimal 8 r'
              else if Ascii.eqb p "b" || Ascii.eqb p "B" then nonDecimal 2 r'
              else unsignedDecimal false l
            else unsignedDecimal false l
        | _ => unsignedDecimal false l
        end
  end.

(** [+s] for a string [s]. *)
Definition ToNumber (s : string) : float :=
  strNumericLiteral (list_ascii_of_string (JsString.trim s)).

(** [+x] for an array element: [+undefined] is NaN. *)
Definition ToNumberElem (x : option string) : float :=
  match x with
  | Some s => ToNumber s
  | None => nan
  end.

End JsNumber.

(** ** The accessory state *)

Inductive alert := LEAK_NOT_DETECTED | LEAK_DETECTED.
Inductive fault := NO_FAULT | GENERAL_FAULT.

(** [this.state] of the constructor. *)
Record state := mkState {
  AlertState : alert;
  deviceState : fault;
  sensor1State : fault;
  sensor1Temp : float;
  sensor1Humid : float;
  sensor2State : fault;
  sensor2Temp : float;
  sensor2Humid : float
}.

Definition initialState : state :=
  mkState LEAK_NOT_DETECTED NO_FAULT NO_FAULT zero zero NO_FAULT zero zero.

Definition setAlertState (a : alert) (st : state) : state :=
  mkState a (deviceState st) (sensor1State st) (sensor1Temp st) (sensor1Humid st)
          (sensor2State st) (sensor2Temp st) (sensor2Humid st).

Definition setDeviceState (f : fault) (st : state) : state :=
  mkState (AlertState st) f (sensor1State st) (sensor1Temp st) (sensor1Humid st)
          (sensor2State st) (sensor2Temp st) (sensor2Humid st).

Definition setSensor1State (f : fault) (st : state) : state :=
  mkState (AlertState st) (deviceState st) f (sensor1Temp st) (sensor1Humid st)
          (sensor2State st) (sensor2Temp st) (sensor2Humid st).

Definition setSensor2State (f : fault) (st : state) : state :=
  mkState (AlertState st) (deviceState st) (sensor1State st) (sensor1Temp st)
          (sensor1Humid st) f (sensor2Temp st) (sensor2Humid st).

(** The three assignments of the "Detected" branch for sensor 1. *)
Definition setSensor1Reading (thisTemp thisHumid : float) (st : state) : state :=
  mkState (AlertState st) (deviceState st) NO_FAULT thisTemp thisHumid
          (sensor2State st) (sensor2Temp st) (sensor2Humid st).

(** The three assignments of the "Detected" branch for sensor 2. *)
Definition setSensor2Reading (thisTemp thisHumid : float) (st : state) : state :=
  mkState (AlertState st) (deviceState st) (sensor1State st) (sensor1Temp st)
          (sensor1Humid st) NO_FAULT thisTemp thisHumid.

(** The fields of one channel, by its index 1 or 2 (any other index reads
    channel 2, as the [else] branches of the source do). *)
Definition sensorState (k : nat) (st : state) : fault :=
  if (k =? 1)%nat then sensor1State st else sensor2State st.
Definition sensorTemp (k : nat) (st : state) : float :=
  if (k =? 1)%nat then sensor1Temp st else sensor2Temp st.
Definition sensorHumid (k : nat) (st : state) : float :=
  if (k =? 1)%nat then sensor1Humid st else sensor2Humid st.

(** ** The record scanner: the [do ... while] loop of [pollSensorState] *)

(** How a piece of the timer callback ends: normally, by an uncaught
    TypeError ([undefined.slice]) with the assignments made so far, or, for
    the fuelled loop only, by running out of fuel. *)
Inductive completion (A : Type) :=
| Normal (a : A)
| TypeError (st : state)
| OutOfFuel.
Arguments Normal {A} a.
Arguments TypeError {A} st.
Arguments OutOfFuel {A}.

(** [x == "lit"] for an array element and a string literal. *)
Definition looseEq (x : option string) (lit : string) : bool :=
  match x with
  | Some s => String.eqb s lit
  | None => false
  end.

(** [(a + b + c) / 3] *)
Definition average3 (a b c : float) : float := ((a + b + c) / 3)%float.

(** One pass through the body of the loop, from the cursor [i] at the top of
    the body to the cursor just before [++i] of the loop condition. *)
Definition loopBody (sensorData : list string) (i thisSensor : nat) (st : state)
  : completion (nat * nat * state) :=
  if looseEq (sensorData !! i) "SHT" then
    let i := S i in
    let '(thisSensor, i) :=
      if looseEq (sensorData !! i) "1" then (1%nat, (i + 2)%nat)
      else if looseEq (sensorData !! i) "2" then (2%nat, (i + 2)%nat)
      else (thisSensor, i) in
    if (0 <? thisSensor)%nat then
      if looseEq (sensorData !! i) "Detected" then
        let thisTemp :=
          average3 (JsNumber.ToNumberElem (sensorData !! (i + 1)%nat))
                   (JsNumber.ToNumberElem (sensorData !! (i + 2)%nat))
                   (JsNumber.ToNumberElem (sensorData !! (i + 3)%nat)) in
        match sensorData !! (i + 4)%nat, sensorData !! (i + 5)%nat,
              sensorData !! (i + 6)%nat with
        | Some h1, Some h2, Some h3 =>
            let thisHumid :=
              average3 (JsNumber.ToNumber (JsString.slice_0_m1 h1))
                       (JsNumber.ToNumber (JsString.slice_0_m1 h2))
                       (JsNumber.ToNumber (JsString.slice_0_m1 h3)) in
            Normal ((i + 6)%nat, thisSensor,
                    if (thisSensor =? 1)%nat
                    then setSensor1Reading thisTemp thisHumid st
                    else setSensor2Reading thisTemp thisHumid st)
        | _, _, _ => TypeError st
        end
      else
        Normal (i, thisSensor,
                if (thisSensor =? 1)%nat
                then setSensor1State GENERAL_FAULT st
                else setSensor2State GENERAL_FAULT st)
    else Normal (i, thisSensor, st)
  else Normal (S i, thisSensor, st).

(** The loop, from the top of the body; [while (++i < sensorData.length)]. *)
Fixpoint scanLoop (fuel : nat) (sensorData : list string) (i thisSensor : nat)
  (st : state) : completion state :=
  match fuel with
  | O => OutOfFuel
  | S fuel' =>
      match loopBody sensorData i thisSensor st with
      | Normal (i', thisSensor', st') =>
          if (S i' <? length sensorData)%nat
          then scanLoop fuel' sensorData (S i') thisSensor' st'
          else Normal st'
      | TypeError st' => TypeError st'
      | OutOfFuel => OutOfFuel
      end
  end.

(** [var i = 0; var thisSensor = 0; do { ... } while (...)]. The cursor
    grows at every pass, so one unit of fuel per token and one more is
    enough (see [scanRecords_terminates]). *)
Definition scanRecords (sensorData : list string) (st : state) : completion state :=
  scanLoop (S (length sensorData)) sensorData 0 0 st.

(** [rawData.trim().replace(/\r?\n|\r/g, ",").split(",")] *)
Definition tokens (rawData : string) : list string :=
  JsString.split (JsString.replaceLineBreaks (JsString.trim rawData)).

(** ** The alert state machine: the [if] on [accessory.state.AlertState] that
    follows the loop *)

Definition alertStep (alertThreshold : float) (st : state) : state :=
  match AlertState st with
  | LEAK_NOT_DETECTED =>
      if (alertThreshold <? sensor1Humid st)%float
         || (alertThreshold <? sensor2Humid st)%float
      then setAlertState LEAK_DETECTED st
      else st
  | LEAK_DETECTED =>
      if (sensor1Humid st <? alertThreshold)%float
         && (sensor2Humid st <? alertThreshold)%float
      then setAlertState LEAK_NOT_DETECTED st
      else st
  end.

(** The parse and debounce steps of the timer callback on the text received
    so far: the loop, then the alert state machine. An uncaught TypeError
    leaves the callback before the state machine runs. *)
Definition processData (alertThreshold : float) (rawData : string) (st : state)
  : completion state :=
  match scanRecords (tokens rawData) st with
  | Normal st' => Normal (alertStep alertThreshold st')
  | TypeError st' => TypeError st'
  | OutOfFuel => OutOfFuel
  end.

(** ** The event loop: [pollState], [pollSensorState] and their callbacks *)

(** The two revisions of the polling code. [IndexJs] is index.js, where no
    statement assigns [deviceState]. [StatusFault] is the revision that
    reports the StatusFault characteristic: its HTTP callbacks assign
    [deviceState] and its timer callback parses only under NO_FAULT. The
    loop, the alert state machine and [pollState] are the same text in both. *)
Inductive revision := IndexJs | StatusFault.

(** What the event loop holds for one accessory. A handle is the number of a
    [setTimeout] or of a call of [pollSensorState]; the request and the
    [rawData] variable of a call are kept under the handle of the call. *)
Record machine := mkMachine {
  accessory : state;          (* accessory.state *)
  stateTimer : option nat;    (* accessory.stateTimer; None is undefined or null *)
  pollTimers : gset nat;      (* armed timers of pollState, not yet expired or cleared *)
  procTimers : gset nat;      (* armed 3000 ms timers of pollSensorState *)
  requests : gmap nat bool;   (* requests in flight; true once a 200 response streams *)
  rawData : gmap nat string;  (* the closure variable rawData of each call *)
  nextHandle : nat;
  uncaught : bool             (* an exception left a callback *)
}.

Definition initialMachine : machine :=
  mkMachine initialState None ∅ ∅ ∅ ∅ 0 false.

Definition withAccessory (st : state) (m : machine) : machine :=
  mkMachine st (stateTimer m) (pollTimers m) (procTimers m) (requests m)
            (rawData m) (nextHandle m) (uncaught m).

Definition withRequests (r : gmap nat bool) (m : machine) : machine :=
  mkMachine (accessory m) (stateTimer m) (pollTimers m) (procTimers m) r
            (rawData m) (nextHandle m) (uncaught m).

(** [pollState]: clear the timer [accessory.stateTimer] names, if any, then
    arm a new one and keep its handle. Clearing a timer that has expired
    does nothing. *)
Definition pollState (m : machine) : machine :=
  let cleared :=
    match stateTimer m with
    | Some h => pollTimers m ∖ {[h]}
    | None => pollTimers m
    end in
  let h := nextHandle m in
  mkMachine (accessory m) (Some h) (cleared ∪ {[h]}) (procTimers m)
            (requests m) (rawData m) (S h) (uncaught m).

(** [pollSensorState], up to its return: [rawData = ''], the request is
    sent, the 3000 ms timer is armed. *)
Definition pollSensorState (m : machine) : machine :=
  let k := nextHandle m in
  mkMachine (accessory m) (stateTimer m) (pollTimers m) (procTimers m ∪ {[k]})
            (<[k := false]> (requests m)) (<[k := ""]> (rawData m)) (S k)
            (uncaught m).

(** The response callback of [page.get]: any status but 200 ends the
    request with nothing read. *)
Definition onResponse (rev : revision) (k : nat) (statusCode : Z) (m : machine)
  : machine :=
  match requests m !! k with
  | Some false =>
      let ok := (statusCode =? 200)%Z in
      let m' :=
        withRequests (if ok then <[k := true]> (requests m)
                      else delete k (requests m)) m in
      match rev with
      | IndexJs => m'
      | StatusFault =>
          withAccessory
            (setDeviceState (if ok then NO_FAULT else GENERAL_FAULT) (accessory m')) m'
      end
  | _ => m
  end.

(** [res.on('data', (chunk) => { rawData += chunk; })] *)
Definition onData (k : nat) (chunk : string) (m : machine) : machine :=
  match requests m !! k with
  | Some true =>
      mkMachine (accessory m) (stateTimer m) (pollTimers m) (procTimers m)
                (requests m)
                (<[k := default "" (rawData m !! k) ++ chunk]> (rawData m))
                (nextHandle m) (uncaught m)
  | _ => m
  end.

(** [res.on('end', ...)]: the request is complete. *)
Definition onEnd (k : nat) (m : machine) : machine :=
  match requests m !! k with
  | Some true => withRequests (delete k (requests m)) m
  | _ => m
  end.

(** [.on('error', ...)]: the request failed. *)
Definition onError (rev : revision) (k : nat) (m : machine) : machine :=
  match requests m !! k with
  | Some _ =>
      let m' := withRequests (delete k (requests m)) m in
      match rev with
      | IndexJs => m'
      | StatusFault => withAccessory (setDeviceState GENERAL_FAULT (accessory m')) m'
      end
  | None => m
  end.

(** The parse and debounce steps, then [accessory.pollState()]; a TypeError
    leaves the callback before [pollState]. *)
Definition processAndRearm (alertThreshold : float) (text : string) (m : machine)
  : machine :=
  match processData alertThreshold text (accessory m) with
  | Normal st' => pollState (withAccessory st' m)
  | TypeError st' =>
      mkMachine st' (stateTimer m) (pollTimers m) (procTimers m) (requests m)
                (rawData m) (nextHandle m) true
  | OutOfFuel => m
  end.

(** The callback of the 3000 ms timer of call [k]. *)
Definition onProcTimeout (rev : revision) (alertThreshold : float) (k : nat)
  (m : machine) : machine :=
  if decide (k ∈ procTimers m) then
    let m' :=
      mkMachine (accessory m) (stateTimer m) (pollTimers m) (procTimers m ∖ {[k]})
                (requests m) (rawData m) (nextHandle m) (uncaught m) in
    let text := default "" (rawData m !! k) in
    match rev with
    | IndexJs => processAndRearm alertThreshold text m'
    | StatusFault =>
        match deviceState (accessory m) with
        | NO_FAULT => processAndRearm alertThreshold text m'
        | GENERAL_FAULT => pollState m'
        end
    end
  else m.

(** The callback of the timer of [pollState]: [accessory.pollSensorState()]. *)
Definition onPollTimeout (h : nat) (m : machine) : machine :=
  if decide (h ∈ pollTimers m) then
    pollSensorState
      (mkMachine (accessory m) (stateTimer m) (pollTimers m ∖ {[h]}) (procTimers m)
                 (requests m) (rawData m) (nextHandle m) (uncaught m))
  else m.

(** What the event loop can run next. [GetServices] is the host calling
    [getServices], which starts the polling with [accessory.pollState()];
    its own connection test only writes to the log. *)
Inductive event :=
| GetServices
| PollTimeout (h : nat)
| Response (k : nat) (statusCode : Z)
| Data (k : nat) (chunk : string)
| End_ (k : nat)
| Error (k : nat)
| ProcTimeout (k : nat).

Section Run.

Variable rev : revision.
Variable alertThreshold : float.

(** One turn of the event loop. Nothing runs after an uncaught exception,
    and an event that is not enabled changes nothing. *)
Definition step (m : machine) (e : event) : machine :=
  if uncaught m then m
  else
    match e with
    | GetServices => pollState m
    | PollTimeout h => onPollTimeout h m
    | Response k statusCode => onResponse rev k statusCode m
    | Data k chunk => onData k chunk m
    | End_ k => onEnd k m
    | Error k => onError rev k m
    | ProcTimeout k => onProcTimeout rev alertThreshold k m
    end.

Definition run (m : machine) (evs : list event) : machine :=
  fold_left step evs m.

End Run.

(** ** Vocabulary of the statements *)

(** The index token of channel 1 or 2. *)
Definition indexToken (k : nat) : string :=
  if (k =? 1)%nat then "1" else "2".

(** A record of channel [k] starts wherever the marker "SHT" is followed by
    the index token of the channel. *)
Definition startsRecordAt (sensorData : list string) (k p : nat) : bool :=
  looseEq (sensorData !! p) "SHT" && looseEq (sensorData !! S p) (indexToken k).

Definition hasRecordFor (sensorData : list string) (k : nat) : bool :=
  existsb (startsRecordAt sensorData k) (seq 0 (length sensorData)).

(** The accessory state once a piece of the callback has returned or thrown. *)
Definition stateAfter (c : completion state) (before : state) : state :=
  match c with
  | Normal st | TypeError st => st
  | OutOfFuel => before
  end.

(** The three fields of channel [k] are the same in two states. *)
Definition sameChannel (k : nat) (st st' : state) : Prop :=
  sensorState k st' = sensorState k st
  ∧ sensorTemp k st' = sensorTemp k st
  ∧ sensorHumid k st' = sensorHumid k st.

(** The four numeric fields of the channels are the same in two states. *)
Definition sameReadings (st st' : state) : Prop :=
  sensor1Temp st' = sensor1Temp st ∧ sensor1Humid st' = sensor1Humid st
  ∧ sensor2Temp st' = sensor2Temp st ∧ sensor2Humid st' = sensor2Humid st.

(** The line break between two lines of a report. *)
Definition newline : string := String JsString.LF EmptyString.

(** The methods of class LeakAlarm, of both revisions. *)
Inductive method :=
| getServices | getState | getFaultState
| getTemp1 | getTemp1FaultState | getHumid1 | getHumid1FaultState
| getTemp2 | getTemp2FaultState | getHumid2 | getHumid2FaultState
| pollSensorState_ | pollState_.

(** What a call of a method does to the timers and the state: the getters
    hand a field to their callback and assign nothing. *)
Definition call (mth : method) (m : machine) : machine :=
  match mth with
  | getServices | pollState_ => pollState m
  | pollSensorState_ => pollSensorState m
  | _ => m
  end.

(** The triggers that are pending: armed timers of either kind. *)
Definition pendingTriggers (m : machine) : nat :=
  size (pollTimers m) + size (procTimers m).

(** The poll timer and the processing timer of one chain of cycles: nothing
    armed, one poll timer that [stateTimer] names, or one 3000 ms timer. *)
Definition singleChain (m : machine) : Prop :=
  (pollTimers m = ∅ ∧ procTimers m = ∅)
  ∨ (∃ h, pollTimers m = {[h]} ∧ stateTimer m = Some h ∧ procTimers m = ∅)
  ∨ (∃ k, pollTimers m = ∅ ∧ procTimers m = {[k]}).

(** Every armed poll timer is the one [stateTimer] names. *)
Definition timerTracked (m : machine) : Prop :=
  ∀ h, h ∈ pollTimers m → stateTimer m = Some h.

(** The ways a cycle fails before its 3000 ms timer expires: the request
    fails, the response has a status other than 200, or nothing arrives. *)
Inductive transportFailure (k : nat) : list event → Prop :=
| ConnectionError : transportFailure k [Error k]
| BadStatus (statusCode : Z) :
    statusCode ≠ 200 → transportFailure k [Response k statusCode]
| NoReply : transportFailure k [].

(** ** Vocabulary of the further properties *)

(** Some token at an even position is the marker "SHT". *)
Definition markerAtEven (sensorData : list string) : bool :=
  existsb (λ j, looseEq (sensorData !! (2 * j)%nat) "SHT")
          (seq 0 (length sensorData)).

(** A string of white space and line terminators only. *)
Fixpoint allWhiteSpace (s : string) : bool :=
  match s with
  | EmptyString => true
  | String c r => JsString.isWhiteSpace c && allWhiteSpace r
  end.

(** One line of a report in the ten-field layout of the device: the marker,
    the index of the channel, the location, the status, three temperatures
    and three humidities. *)
Record reportLine := mkLine {
  lineChannel : nat;
  lineLocation : string;
  lineStatus : string;
  lineTemps : string * string * string;
  lineHumids : string * string * string
}.

(** The ten tokens of a line. *)
Definition lineTokens (l : reportLine) : list string :=
  let '(t1, t2, t3) := lineTemps l in
  let '(h1, h2, h3) := lineHumids l in
  ["SHT"; indexToken (lineChannel l); lineLocation l; lineStatus l;
   t1; t2; t3; h1; h2; h3].

(** What the loop assigns for one line: the three fields of the channel for
    a "Detected" line, its health alone for any other status. *)
Definition applyLine (st : state) (l : reportLine) : state :=
  let '(t1, t2, t3) := lineTemps l in
  let '(h1, h2, h3) := lineHumids l in
  if String.eqb (lineStatus l) "Detected" then
    let thisTemp :=
      average3 (JsNumber.ToNumber t1) (JsNumber.ToNumber t2) (JsNumber.ToNumber t3) in
    let thisHumid :=
      average3 (JsNumber.ToNumber (JsString.slice_0_m1 h1))
               (JsNumber.ToNumber (JsString.slice_0_m1 h2))
               (JsNumber.ToNumber (JsString.slice_0_m1 h3)) in
    if (lineChannel l =? 1)%nat then setSensor1Reading thisTemp thisHumid st
    else setSensor2Reading thisTemp thisHumid st
  else
    if (lineChannel l =? 1)%nat then setSensor1State GENERAL_FAULT st
    else setSensor2State GENERAL_FAULT st.

(** A line the loop reads as the device means it: the channel is 1 or 2,
    and, when the status is not "Detected", none of the tokens the cursor
    then lands on (the first and third temperature and the second humidity)
    is the marker. *)
Definition lineInStep (l : reportLine) : bool :=
  ((lineChannel l =? 1)%nat || (lineChannel l =? 2)%nat)
  && (String.eqb (lineStatus l) "Detected"
      || let '(t1, _, t3) := lineTemps l in
         let '(_, h2, _) := lineHumids l in
         negb (String.eqb t1 "SHT") && negb (String.eqb t3 "SHT")
         && negb (String.eqb h2 "SHT")).



(** What separates two fields of a report: a comma or a line break. *)
Inductive separator := Comma | LineFeed | CarriageReturnLineFeed.

Definition separatorText (sep : separator) : string :=
  match sep with
  | Comma => ","
  | LineFeed => String JsString.LF EmptyString
  | CarriageReturnLineFeed => String JsString.CR (String JsString.LF EmptyString)
  end.

(** A field with no comma and no line break in it. *)
Fixpoint plainField (f : string) : bool :=
  match f with
  | EmptyString => true
  | String c r =>
      negb (Ascii.eqb c "," || Ascii.eqb c JsString.CR || Ascii.eqb c JsString.LF)
      && plainField r
  end.

(** The text of a first field and of the fields that follow it, each after
    its separator. *)
Fixpoint reportText (first : string) (rest : list (separator * string)) : string :=
  match rest with
  | [] => first
  | (sep, f) :: rest' => first ++ separatorText sep ++ reportText f rest'
  end.

Definition startsWithWhiteSpace (s : string) : bool :=
  match s with
  | EmptyString => false
  | String c _ => JsString.isWhiteSpace c
  end.

(** A text that neither begins nor ends with white space. *)
Definition solidEdges (s : string) : bool :=
  negb (startsWithWhiteSpace s) && negb (startsWithWhiteSpace (JsString.reverse s)).

(** ** What HomeKit is told and what it is answered *)

(** The five services of the accessory that carry readings. *)
Inductive service :=
| leakSensor | tempSensor1Service | humidSensor1Service
| tempSensor2Service | humidSensor2Service.

Inductive characteristic :=
| LeakDetected | StatusFaultOf | CurrentTemperature | CurrentRelativeHumidity.

(** A value of a characteristic: a field of [accessory.state]. *)
Inductive hapValue :=
| AlertValue (a : alert)
| FaultValue (f : fault)
| NumberValue (x : float).

(** The getter the constructor binds to the 'get' event of a characteristic,
    [.on('get', this.getter.bind(this))]. index.js binds no getter to
    StatusFault. *)
Definition getHandler (rev : revision) (s : service) (c : characteristic)
  : option method :=
  match s, c with
  | leakSensor, LeakDetected => Some getState
  | tempSensor1Service, CurrentTemperature => Some getTemp1
  | humidSensor1Service, CurrentRelativeHumidity => Some getHumid1
  | tempSensor2Service, CurrentTemperature => Some getTemp2
  | humidSensor2Service, CurrentRelativeHumidity => Some getHumid2
  | _, StatusFaultOf =>
      match rev with
      | IndexJs => None
      | StatusFault =>
          Some match s with
               | leakSensor => getFaultState
               | tempSensor1Service => getTemp1FaultState
               | humidSensor1Service => getHumid2FaultState
               | tempSensor2Service => getTemp2FaultState
               | humidSensor2Service => getHumid2FaultState
               end
      end
  | _, _ => None
  end.

(** The value a getter hands over, [callback(null, value)]. *)
Definition answer (mth : method) (st : state) : option hapValue :=
  match mth with
  | getState => Some (AlertValue (AlertState st))
  | getFaultState => Some (FaultValue (deviceState st))
  | getTemp1 => Some (NumberValue (sensor1Temp st))
  | getTemp1FaultState => Some (FaultValue (sensor1State st))
  | getHumid1 => Some (NumberValue (sensor1Humid st))
  | getHumid1FaultState => Some (FaultValue (sensor1State st))
  | getTemp2 => Some (NumberValue (sensor2Temp st))
  | getTemp2FaultState => Some (FaultValue (sensor2State st))
  | getHumid2 => Some (NumberValue (sensor2Humid st))
  | getHumid2FaultState => Some (FaultValue (sensor2State st))
  | getServices | pollSensorState_ | pollState_ => None
  end.

Definition update : Type := service * characteristic * hapValue.

(** The calls of [updateCharacteristic] at the end of the timer callback of
    index.js, in order. *)
Definition updatesOfIndexJs (st : state) : list update :=
  [(leakSensor, LeakDetected, AlertValue (AlertState st));
   (tempSensor1Service, CurrentTemperature, NumberValue (sensor1Temp st));
   (humidSensor1Service, CurrentRelativeHumidity, NumberValue (sensor1Humid st));
   (tempSensor2Service, CurrentTemperature, NumberValue (sensor2Temp st));
   (humidSensor2Service, CurrentRelativeHumidity, NumberValue (sensor2Humid st))].

(** The same calls in the revision that reports StatusFault, under
    NO_FAULT. *)
Definition updatesOfStatusFault (st : state) : list update :=
  [(leakSensor, LeakDetected, AlertValue (AlertState st));
   (leakSensor, StatusFaultOf, FaultValue (deviceState st));
   (tempSensor1Service, CurrentTemperature, NumberValue (sensor1Temp st));
   (tempSensor1Service, StatusFaultOf, FaultValue (sensor1State st));
   (humidSensor1Service, CurrentRelativeHumidity, NumberValue (sensor1Humid st));
   (humidSensor1Service, StatusFaultOf, FaultValue (sensor1State st));
   (tempSensor2Service, CurrentTemperature, NumberValue (sensor2Temp st));
   (tempSensor2Service, StatusFaultOf, FaultValue (sensor2State st));
   (humidSensor2Service, CurrentRelativeHumidity, NumberValue (sensor2Humid st));
   (humidSensor2Service, StatusFaultOf, FaultValue (sensor2State st))].

(** The timer callback up to [accessory.pollState()]: the state it leaves
    and the updates it sends. A TypeError leaves the callback before any
    update; under GENERAL_FAULT the revision that reports StatusFault sends
    the fault of the leak sensor alone. *)
Definition timerCallback (rev : revision) (alertThreshold : float) (text : string)
  (st : state) : state * list update :=
  let parsed (updatesOf : state → list update) :=
    match processData alertThreshold text st with
    | Normal st' => (st', updatesOf st')
    | TypeError st' => (st', [])
    | OutOfFuel => (st, [])
    end in
  match rev with
  | IndexJs => parsed updatesOfIndexJs
  | StatusFault =>
      match deviceState st with
      | NO_FAULT => parsed updatesOfStatusFault
      | GENERAL_FAULT => (st, [(leakSensor, StatusFaultOf, FaultValue (deviceState st))])
      end
  end.

(** * Properties *)

(** ** Facts of binary64 arithmetic *)

Section FloatFacts.

Lemma SFcompare_antisym (x y : spec_float) :
  SFcompare y x = option_map CompOpp (SFcompare x y).
Proof.
  destruct x as [sx|sx| |sx mx ex], y as [sy|sy| |sy my ey]; simpl;
    try reflexivity; try (destruct sx; reflexivity);
    try (destruct sy; reflexivity); try (destruct sx, sy; reflexivity).
  change (Pos.compare_cont Eq my mx) with (Pos.compare my mx).
  change (Pos.compare_cont Eq mx my) with (Pos.compare mx my).
  rewrite (Z.compare_antisym ex ey), (Pos.compare_antisym mx my).
  destruct sx, sy; simpl; try reflexivity;
    destruct (ex ?= ey)%Z; simpl; try reflexivity;
    destruct (mx ?= my)%positive; reflexivity.
Qed.

(** Two numbers that [==] holds equal are not [<] either way. *)
Lemma ltb_of_eqb (x y : float) :
  (x =? y)%float = true → (x <? y)%float = false ∧ (y <? x)%float = false.
Proof.
  rewrite FloatAxioms.eqb_spec, !ltb_spec. unfold SFeqb, SFltb.
  rewrite (SFcompare_antisym (Prim2SF x) (Prim2SF y)).
  destruct (SFcompare (Prim2SF x) (Prim2SF y)) as [[]|]; simpl; intros;
    auto; discriminate.
Qed.

Lemma ltb_irrefl (x : float) : (x <? x)%float = false.
Proof.
  rewrite ltb_spec. unfold SFltb.
  pose proof (SFcompare_antisym (Prim2SF x) (Prim2SF x)) as H.
  destruct (SFcompare (Prim2SF x) (Prim2SF x)) as [[]|]; try reflexivity.
  discriminate.
Qed.

Lemma ltb_neq (x y : float) : (x <? y)%float = true → x ≠ y.
Proof. intros H ->. rewrite ltb_irrefl in H. discriminate. Qed.

Lemma add_nan_l (x : float) : (nan + x)%float = nan.
Proof. apply Prim2SF_inj. rewrite add_spec. reflexivity. Qed.

Lemma add_nan_r (x : float) : (x + nan)%float = nan.
Proof.
  apply Prim2SF_inj. rewrite add_spec.
  change (Prim2SF nan) with S754_nan.
  unfold SF64add, SFadd. destruct (Prim2SF x) as [[]|[]| |]; reflexivity.
Qed.

Lemma div_nan_l (x : float) : (nan / x)%float = nan.
Proof. apply Prim2SF_inj. rewrite div_spec. reflexivity. Qed.

Lemma SFadd_comm (x y : spec_float) : SFadd prec emax x y = SFadd prec emax y x.
Proof.
  destruct x as [sx|sx| |sx mx ex], y as [sy|sy| |sy my ey]; simpl;
    try reflexivity; try (destruct sx, sy; reflexivity).
  rewrite (Z.min_comm ey ex), Z.add_comm. reflexivity.
Qed.

Lemma add_comm (x y : float) : (x + y)%float = (y + x)%float.
Proof. apply Prim2SF_inj. rewrite !add_spec. apply SFadd_comm. Qed.

(** A NaN sample makes the average NaN. *)
Lemma average3_nan (a b c : float) :
  a = nan ∨ b = nan ∨ c = nan → average3 a b c = nan.
Proof.
  unfold average3. intros [-> | [-> | ->]].
  - now rewrite !add_nan_l, div_nan_l.
  - now rewrite add_nan_r, add_nan_l, div_nan_l.
  - now rewrite add_nan_r, div_nan_l.
Qed.

Lemma average3_swap (a b c : float) : average3 a b c = average3 b a c.
Proof. unfold average3. now rewrite (add_comm a b). Qed.

End FloatFacts.

(** ** The alert state machine *)

(** C1. Once per cycle the state machine goes from LEAK_NOT_DETECTED to
    LEAK_DETECTED exactly when the humidity of a channel is [>] the
    threshold, from LEAK_DETECTED to LEAK_NOT_DETECTED exactly when both
    humidities are [<] the threshold, and assigns nothing else. A humidity
    equal to the threshold satisfies neither comparison: with both channels
    at the threshold the state is unchanged, and one channel at the
    threshold keeps LEAK_DETECTED. The health of the channels is not read:
    a faulted channel takes part with the humidity it holds. *)
Theorem alertStep_hysteresis (alertThreshold : float) (st : state) :
  let st' := alertStep alertThreshold st in
  let h1 := sensor1Humid st in
  let h2 := sensor2Humid st in
  st' = setAlertState (AlertState st') st
  ∧ (AlertState st = LEAK_NOT_DETECTED →
     (AlertState st' = LEAK_DETECTED
      ↔ (alertThreshold <? h1)%float = true ∨ (alertThreshold <? h2)%float = true))
  ∧ (AlertState st = LEAK_DETECTED →
     (AlertState st' = LEAK_NOT_DETECTED
      ↔ (h1 <? alertThreshold)%float = true ∧ (h2 <? alertThreshold)%float = true))
  ∧ ((h1 =? alertThreshold)%float = true → (h2 =? alertThreshold)%float = true →
     st' = st)
  ∧ ((h1 =? alertThreshold)%float = true ∨ (h2 =? alertThreshold)%float = true →
     AlertState st = LEAK_DETECTED → AlertState st' = LEAK_DETECTED)
  ∧ (∀ f1 f2 : fault,
       AlertState (alertStep alertThreshold (setSensor1State f1 (setSensor2State f2 st)))
       = AlertState st').
Proof.
  destruct st as [a d s1 t1 h1 s2 t2 h2]. cbn zeta. unfold alertStep. simpl.
  split; [|split; [|split; [|split; [|split]]]].
  - destruct a; simpl; repeat (case_match; simpl); reflexivity.
  - intros ->. destruct (_ || _) eqn:E; simpl.
    + apply orb_true_iff in E. tauto.
    + apply orb_false_iff in E as [E1 E2]. rewrite E1, E2.
      split; [discriminate|intros [?|?]; discriminate].
  - intros ->. destruct (_ && _) eqn:E; simpl.
    + apply andb_true_iff in E. tauto.
    + split; [discriminate|]. intros [E1 E2]. rewrite E1, E2 in E. discriminate.
  - intros E1 E2. apply ltb_of_eqb in E1 as [E1 E1'], E2 as [E2 E2'].
    rewrite E1, E1', E2, E2'. simpl. now destruct a.
  - intros E ->. simpl.
    destruct E as [E|E]; apply ltb_of_eqb in E as [E _]; rewrite E;
      rewrite ?andb_false_r; reflexivity.
  - intros f1 f2. destruct a; simpl; case_match; reflexivity.
Qed.

(** ** The record scanner *)

Section ScannerFacts.

Variable sensorData : list string.

(** The cursor positions the body reads, written from the marker. *)
Lemma cursor_offsets (p : nat) :
  (S p + 2 = p + 3 ∧ S p + 2 + 1 = p + 4 ∧ S p + 2 + 2 = p + 5
   ∧ S p + 2 + 3 = p + 6 ∧ S p + 2 + 4 = p + 7 ∧ S p + 2 + 5 = p + 8
   ∧ S p + 2 + 6 = p + 9)%nat.
Proof. lia. Qed.

Lemma indexToken_cases (k : nat) :
  k = 1%nat ∨ k = 2%nat →
  (k = 1%nat ∧ indexToken k = "1") ∨ (k = 2%nat ∧ indexToken k = "2").
Proof. intros [-> | ->]; [left|right]; split; reflexivity. Qed.

(** The body on a record of channel [k] whose status is "Detected" and whose
    six samples are present: the three assignments of the channel, with the
    cursor left on the last sample. *)
Lemma loopBody_detected (p thisSensor : nat) (st : state) (k : nat)
  (t1 t2 t3 h1 h2 h3 : string) :
  k = 1%nat ∨ k = 2%nat →
  sensorData !! p = Some "SHT" →
  sensorData !! (p + 1)%nat = Some (indexToken k) →
  sensorData !! (p + 3)%nat = Some "Detected" →
  sensorData !! (p + 4)%nat = Some t1 →
  sensorData !! (p + 5)%nat = Some t2 →
  sensorData !! (p + 6)%nat = Some t3 →
  sensorData !! (p + 7)%nat = Some h1 →
  sensorData !! (p + 8)%nat = Some h2 →
  sensorData !! (p + 9)%nat = Some h3 →
  let thisTemp :=
    average3 (JsNumber.ToNumber t1) (JsNumber.ToNumber t2) (JsNumber.ToNumber t3) in
  let thisHumid :=
    average3 (JsNumber.ToNumber (JsString.slice_0_m1 h1))
             (JsNumber.ToNumber (JsString.slice_0_m1 h2))
             (JsNumber.ToNumber (JsString.slice_0_m1 h3)) in
  loopBody sensorData p thisSensor st
  = Normal ((p + 9)%nat, k,
            if (k =? 1)%nat then setSensor1Reading thisTemp thisHumid st
            else setSensor2Reading thisTemp thisHumid st).
Proof.
  intros Hk H0 H1 H3 H4 H5 H6 H7 H8 H9.
  destruct (cursor_offsets p) as (E3 & E4 & E5 & E6 & E7 & E8 & E9).
  replace (p + 1)%nat with (S p) in H1 by lia.
  unfold loopBody. rewrite H0. cbn [looseEq]. rewrite String.eqb_refl.
  rewrite H1. cbn [looseEq].
  destruct (indexToken_cases k Hk) as [[-> ->] | [-> ->]]; cbn -[average3 lookup Nat.add];
    rewrite E4, E5, E6, E7, E8, E9, E3, H3, H4, H5, H6, H7, H8, H9;
    cbn [looseEq JsNumber.ToNumberElem]; rewrite String.eqb_refl; reflexivity.
Qed.

(** The body on a record of channel [k] whose status is not "Detected":
    the channel is marked faulty, nothing else is assigned, and the cursor
    is left on the status. *)
Lemma loopBody_not_detected (p thisSensor : nat) (st : state) (k : nat) :
  k = 1%nat ∨ k = 2%nat →
  sensorData !! p = Some "SHT" →
  sensorData !! (p + 1)%nat = Some (indexToken k) →
  sensorData !! (p + 3)%nat ≠ Some "Detected" →
  loopBody sensorData p thisSensor st
  = Normal ((p + 3)%nat, k,
            if (k =? 1)%nat then setSensor1State GENERAL_FAULT st
            else setSensor2State GENERAL_FAULT st).
Proof.
  intros Hk H0 H1 H3.
  destruct (cursor_offsets p) as (E3 & _).
  replace (p + 1)%nat with (S p) in H1 by lia.
  assert (Hs : looseEq (sensorData !! (p + 3)%nat) "Detected" = false).
  { destruct (sensorData !! (p + 3)%nat) as [s|] eqn:E; [|reflexivity].
    cbn. apply String.eqb_neq. congruence. }
  unfold loopBody. rewrite H0. cbn [looseEq]. rewrite String.eqb_refl.
  rewrite H1. cbn [looseEq].
  destruct (indexToken_cases k Hk) as [[-> ->] | [-> ->]]; cbn -[lookup Nat.add];
    rewrite E3, Hs; reflexivity.
Qed.

(** Every pass moves the cursor forward. *)
Lemma loopBody_advances (i thisSensor : nat) (st : state) (i' thisSensor' : nat)
  (st' : state) :
  loopBody sensorData i thisSensor st = Normal (i', thisSensor', st') →
  (i < i')%nat.
Proof.
  unfold loopBody. intros H.
  repeat (case_match; simplify_eq); lia.
Qed.

Lemma loopBody_fuel (i thisSensor : nat) (st : state) :
  loopBody sensorData i thisSensor st ≠ OutOfFuel.
Proof.
  unfold loopBody. repeat (case_match; simplify_eq); discriminate.
Qed.

(** The loop ends: one unit of fuel for each token from the cursor on, and
    one more, is enough. *)
Lemma scanLoop_terminates (fuel i thisSensor : nat) (st : state) :
  (length sensorData - i < fuel)%nat →
  scanLoop fuel sensorData i thisSensor st ≠ OutOfFuel.
Proof.
  revert i thisSensor st.
  induction fuel as [|fuel IH]; intros i thisSensor st Hf; [lia|].
  cbn [scanLoop].
  destruct (loopBody sensorData i thisSensor st) as [[[i' ts'] st']|st'|] eqn:E.
  - apply loopBody_advances in E.
    destruct (S i' <? length sensorData)%nat eqn:El; [|discriminate].
    apply Nat.ltb_lt in El. apply IH. lia.
  - discriminate.
  - now apply loopBody_fuel in E.
Qed.

End ScannerFacts.

Lemma scanRecords_terminates (sensorData : list string) (st : state) :
  scanRecords sensorData st ≠ OutOfFuel.
Proof. apply scanLoop_terminates. lia. Qed.

Lemma processData_terminates (alertThreshold : float) (rawData : string) (st : state) :
  processData alertThreshold rawData st ≠ OutOfFuel.
Proof.
  unfold processData.
  pose proof (scanRecords_terminates (tokens rawData) st).
  destruct (scanRecords _ _); congruence.
Qed.

(** A pass that does not start on a record of channel [k], entered with
    [thisSensor] not [k], assigns no field of channel [k] and leaves
    [thisSensor] not [k]. *)
Lemma loopBody_other_channel (sensorData : list string) (i thisSensor : nat)
  (st : state) (k : nat) :
  k = 1%nat ∨ k = 2%nat →
  startsRecordAt sensorData k i = false →
  thisSensor = 0%nat ∨ thisSensor = (3 - k)%nat →
  match loopBody sensorData i thisSensor st with
  | Normal (_, thisSensor', st') =>
      (thisSensor' = 0%nat ∨ thisSensor' = (3 - k)%nat) ∧ sameChannel k st st'
  | TypeError st' => st' = st
  | OutOfFuel => False
  end.
Proof.
  unfold startsRecordAt, loopBody, sameChannel, sensorState, sensorTemp, sensorHumid.
  intros [-> | ->] Hm [-> | ->]; cbn [indexToken Nat.eqb Nat.sub] in *;
    destruct (looseEq (sensorData !! i) "SHT"); cbn [andb] in Hm;
    rewrite ?Hm; repeat (case_match; simplify_eq; cbn); auto.
Qed.

Lemma hasRecordFor_false (sensorData : list string) (k i : nat) :
  hasRecordFor sensorData k = false → startsRecordAt sensorData k i = false.
Proof.
  unfold hasRecordFor. intros H.
  destruct (startsRecordAt sensorData k i) eqn:E; [|reflexivity].
  assert (Hi : (i < length sensorData)%nat).
  { unfold startsRecordAt in E. apply andb_true_iff in E as [E _].
    destruct (sensorData !! i) eqn:El; [|discriminate].
    now apply lookup_lt_Some in El. }
  assert (Hex : existsb (startsRecordAt sensorData k) (seq 0 (length sensorData)) = true).
  { apply existsb_exists. exists i. split; [apply in_seq; lia|exact E]. }
  congruence.
Qed.

(** The loop on a report with no record of channel [k] assigns no field of
    the channel, however it ends. *)
Lemma scanLoop_other_channel (sensorData : list string) (k : nat) :
  k = 1%nat ∨ k = 2%nat →
  hasRecordFor sensorData k = false →
  ∀ (fuel i thisSensor : nat) (st : state),
    thisSensor = 0%nat ∨ thisSensor = (3 - k)%nat →
    sameChannel k st (stateAfter (scanLoop fuel sensorData i thisSensor st) st).
Proof.
  intros Hk Hno fuel.
  induction fuel as [|fuel IH]; intros i thisSensor st Hts; cbn [scanLoop stateAfter].
  - repeat split.
  - pose proof (loopBody_other_channel sensorData i thisSensor st k Hk
                  (hasRecordFor_false _ _ i Hno) Hts) as Hb.
    destruct (loopBody sensorData i thisSensor st) as [[[i' ts'] st']|st'|];
      [|subst; repeat split|contradiction].
    destruct Hb as [Hts' (Hs & Ht & Hh)].
    destruct (S i' <? length sensorData)%nat; [|repeat split; assumption].
    specialize (IH (S i') ts' st' Hts') as (Hs' & Ht' & Hh').
    destruct (scanLoop fuel sensorData (S i') ts' st') as [s|s|]; cbn [stateAfter] in *;
      repeat split; congruence.
Qed.

Lemma alertStep_sameChannel (alertThreshold : float) (k : nat) (st : state) :
  sameChannel k st (alertStep alertThreshold st).
Proof.
  unfold alertStep, sameChannel, sensorState, sensorTemp, sensorHumid.
  repeat case_match; repeat split.
Qed.

Lemma list_ascii_of_string_app (s t : string) :
  list_ascii_of_string (s ++ t)
  = (list_ascii_of_string s ++ list_ascii_of_string t)%list.
Proof. induction s as [|c s IH]; simpl; [reflexivity|f_equal; exact IH]. Qed.

(** [slice(0, -1)] takes the last code unit off, whichever it is. *)
Lemma slice_0_m1_last (s : string) (c : ascii) :
  JsString.slice_0_m1 (s ++ String c EmptyString) = s.
Proof.
  unfold JsString.slice_0_m1. rewrite list_ascii_of_string_app. cbn.
  rewrite removelast_last. apply string_of_list_ascii_of_string.
Qed.

(** ** The sample aggregator *)

(** C2, as the source has it. On a record of channel 1 or 2 whose status
    is "Detected" and whose six samples are present, the pass publishes as
    temperature the binary64 value of [(t1 + t2 + t3) / 3] over the coerced
    temperature tokens, as humidity the same average over the humidity
    tokens without their last character, and marks the channel NO_FAULT.
    The two averages are the same when the first two samples change
    places. *)
Theorem detected_record_publishes_average (sensorData : list string)
  (p thisSensor : nat) (st : state) (k : nat) (t1 t2 t3 h1 h2 h3 : string) :
  k = 1%nat ∨ k = 2%nat →
  sensorData !! p = Some "SHT" →
  sensorData !! (p + 1)%nat = Some (indexToken k) →
  sensorData !! (p + 3)%nat = Some "Detected" →
  sensorData !! (p + 4)%nat = Some t1 →
  sensorData !! (p + 5)%nat = Some t2 →
  sensorData !! (p + 6)%nat = Some t3 →
  sensorData !! (p + 7)%nat = Some h1 →
  sensorData !! (p + 8)%nat = Some h2 →
  sensorData !! (p + 9)%nat = Some h3 →
  let T (s : string) := JsNumber.ToNumber s in
  let H (s : string) := JsNumber.ToNumber (JsString.slice_0_m1 s) in
  ∃ st' : state,
    loopBody sensorData p thisSensor st = Normal ((p + 9)%nat, k, st')
    ∧ sensorTemp k st' = ((T t1 + T t2 + T t3) / 3)%float
    ∧ sensorHumid k st' = ((H h1 + H h2 + H h3) / 3)%float
    ∧ sensorState k st' = NO_FAULT
    ∧ sensorTemp k st' = ((T t2 + T t1 + T t3) / 3)%float
    ∧ sensorHumid k st' = ((H h2 + H h1 + H h3) / 3)%float.
Proof.
  intros Hk H0 H1 H3 H4 H5 H6 H7 H8 H9 T H.
  eexists. split.
  - exact (loopBody_detected sensorData p thisSensor st k t1 t2 t3 h1 h2 h3
             Hk H0 H1 H3 H4 H5 H6 H7 H8 H9).
  - fold (average3 (T t1) (T t2) (T t3)) (average3 (H h1) (H h2) (H h3))
         (average3 (T t2) (T t1) (T t3)) (average3 (H h2) (H h1) (H h3)).
    rewrite (average3_swap (T t2)), (average3_swap (H h2)).
    destruct Hk as [-> | ->]; repeat split.
Qed.

Lemma detected_record_publishes_average_witness :
  ∃ st' : state,
    loopBody (tokens "SHT,1,A,Detected,20,20,20,91%,91%,91%") 0 0 initialState
    = Normal (9%nat, 1%nat, st')
    ∧ sensorTemp 1 st' = 20%float
    ∧ sensorHumid 1 st' = 91%float
    ∧ sensorState 1 st' = NO_FAULT
    ∧ sensorTemp 1 st' = 20%float
    ∧ sensorHumid 1 st' = 91%float.
Proof.
  exact (detected_record_publishes_average
           (tokens "SHT,1,A,Detected,20,20,20,91%,91%,91%") 0 0 initialState 1
           "20" "20" "20" "91%" "91%" "91%"
           (or_introl eq_refl) eq_refl eq_refl eq_refl eq_refl eq_refl eq_refl
           eq_refl eq_refl eq_refl).
Defined.

(** C2, as the specification words it, fails: the same three temperature
    samples in another order give another published temperature. *)
Lemma average_depends_on_order :
  ∃ st1 st2 : state,
    processData 90 "SHT,1,A,Detected,22.1,22.2,22.3,50%,50%,50%" initialState
    = Normal st1
    ∧ processData 90 "SHT,1,A,Detected,22.1,22.3,22.2,50%,50%,50%" initialState
      = Normal st2
    ∧ sensor1State st1 = NO_FAULT ∧ sensor1State st2 = NO_FAULT
    ∧ (sensor1Temp st1 <? sensor1Temp st2)%float = true
    ∧ sensor1Temp st1 ≠ sensor1Temp st2.
Proof.
  eexists. eexists.
  split; [vm_compute; reflexivity|]. split; [vm_compute; reflexivity|].
  cbn [sensor1State sensor1Temp].
  split; [reflexivity|]. split; [reflexivity|].
  match goal with |- ?A ∧ _ => assert (Hlt : A) by (vm_compute; reflexivity) end.
  split; [exact Hlt|apply ltb_neq; exact Hlt].
Qed.

(** C5, as the source has it. On a "Detected" record whose six samples are
    present the pass ends normally whatever the tokens hold; a temperature
    token that coerces to NaN makes the published temperature NaN, a
    humidity token that coerces to NaN makes the published humidity NaN,
    and the channel is marked NO_FAULT all the same. *)
Theorem nan_sample_publishes_nan (sensorData : list string)
  (p thisSensor : nat) (st : state) (k : nat) (t1 t2 t3 h1 h2 h3 : string) :
  k = 1%nat ∨ k = 2%nat →
  sensorData !! p = Some "SHT" →
  sensorData !! (p + 1)%nat = Some (indexToken k) →
  sensorData !! (p + 3)%nat = Some "Detected" →
  sensorData !! (p + 4)%nat = Some t1 →
  sensorData !! (p + 5)%nat = Some t2 →
  sensorData !! (p + 6)%nat = Some t3 →
  sensorData !! (p + 7)%nat = Some h1 →
  sensorData !! (p + 8)%nat = Some h2 →
  sensorData !! (p + 9)%nat = Some h3 →
  let T (s : string) := JsNumber.ToNumber s in
  let H (s : string) := JsNumber.ToNumber (JsString.slice_0_m1 s) in
  ∃ st' : state,
    loopBody sensorData p thisSensor st = Normal ((p + 9)%nat, k, st')
    ∧ sensorState k st' = NO_FAULT
    ∧ (T t1 = nan ∨ T t2 = nan ∨ T t3 = nan → sensorTemp k st' = nan)
    ∧ (H h1 = nan ∨ H h2 = nan ∨ H h3 = nan → sensorHumid k st' = nan).
Proof.
  intros Hk H0 H1 H3 H4 H5 H6 H7 H8 H9 T H.
  eexists. split.
  - exact (loopBody_detected sensorData p thisSensor st k t1 t2 t3 h1 h2 h3
             Hk H0 H1 H3 H4 H5 H6 H7 H8 H9).
  - destruct Hk as [-> | ->]; (split; [reflexivity|]);
      split; intros Hn; apply average3_nan in Hn; exact Hn.
Qed.

Lemma nan_sample_publishes_nan_witness :
  ∃ st' : state,
    loopBody (tokens "SHT,2,B,Detected,21.5,n/a,21.4,60%,err,61%") 0 0 initialState
    = Normal (9%nat, 2%nat, st')
    ∧ sensorState 2 st' = NO_FAULT
    ∧ sensorTemp 2 st' = nan
    ∧ sensorHumid 2 st' = nan.
Proof.
  destruct (nan_sample_publishes_nan
              (tokens "SHT,2,B,Detected,21.5,n/a,21.4,60%,err,61%") 0 0 initialState 2
              "21.5" "n/a" "21.4" "60%" "err" "61%"
              (or_intror eq_refl) eq_refl eq_refl eq_refl eq_refl eq_refl eq_refl
              eq_refl eq_refl eq_refl) as (st' & Hb & Hs & Ht & Hh).
  exists st'. split; [exact Hb|]. split; [exact Hs|]. split.
  - apply Ht. right. left. reflexivity.
  - apply Hh. right. left. reflexivity.
Defined.

(** C5, as the specification words it, fails: a temperature token that is
    not a number leaves the channel NO_FAULT with NaN as its temperature. *)
Lemma nan_sample_published_as_healthy :
  ∃ st' : state,
    processData 90 "SHT,1,A,Detected,abc,20,20,50%,50%,50%" initialState = Normal st'
    ∧ JsNumber.ToNumber "abc" = nan
    ∧ sensor1State st' = NO_FAULT
    ∧ sensor1State st' ≠ GENERAL_FAULT
    ∧ sensor1Temp st' = nan.
Proof.
  eexists. split; [vm_compute; reflexivity|].
  repeat split. discriminate.
Qed.

(** C6. On a record of channel 1 or 2 whose status token is anything but
    "Detected" (or is missing), the pass marks the channel GENERAL_FAULT and
    leaves the temperature and the humidity of the channel as they were. *)
Theorem not_detected_record_faults_channel (sensorData : list string)
  (p thisSensor : nat) (st : state) (k : nat) :
  k = 1%nat ∨ k = 2%nat →
  sensorData !! p = Some "SHT" →
  sensorData !! (p + 1)%nat = Some (indexToken k) →
  sensorData !! (p + 3)%nat ≠ Some "Detected" →
  ∃ st' : state,
    loopBody sensorData p thisSensor st = Normal ((p + 3)%nat, k, st')
    ∧ sensorState k st' = GENERAL_FAULT
    ∧ sensorTemp k st' = sensorTemp k st
    ∧ sensorHumid k st' = sensorHumid k st.
Proof.
  intros Hk H0 H1 H3.
  eexists. split.
  - exact (loopBody_not_detected sensorData p thisSensor st k Hk H0 H1 H3).
  - destruct Hk as [-> | ->]; repeat split.
Qed.

Lemma not_detected_record_faults_channel_witness :
  ∃ st' : state,
    loopBody (tokens "SHT,2,B,Not Detected,0,0,0,0%,0%,0%") 0 0 initialState
    = Normal (3%nat, 2%nat, st')
    ∧ sensorState 2 st' = GENERAL_FAULT
    ∧ sensorTemp 2 st' = sensorTemp 2 initialState
    ∧ sensorHumid 2 st' = sensorHumid 2 initialState.
Proof.
  apply (not_detected_record_faults_channel
           (tokens "SHT,2,B,Not Detected,0,0,0,0%,0%,0%") 0 0 initialState 2
           (or_intror eq_refl) eq_refl eq_refl).
  vm_compute. discriminate.
Defined.

(** C10. On a "Detected" record the published humidity is the average of
    the humidity tokens coerced after [slice(0, -1)]: the last character of
    each token goes, a percent sign or not, so "91" is coerced as 9, and an
    empty token is coerced as 0 without an error. *)
Theorem humidity_last_character_removed (sensorData : list string)
  (p thisSensor : nat) (st : state) (k : nat) (t1 t2 t3 h1 h2 h3 : string) :
  k = 1%nat ∨ k = 2%nat →
  sensorData !! p = Some "SHT" →
  sensorData !! (p + 1)%nat = Some (indexToken k) →
  sensorData !! (p + 3)%nat = Some "Detected" →
  sensorData !! (p + 4)%nat = Some t1 →
  sensorData !! (p + 5)%nat = Some t2 →
  sensorData !! (p + 6)%nat = Some t3 →
  sensorData !! (p + 7)%nat = Some h1 →
  sensorData !! (p + 8)%nat = Some h2 →
  sensorData !! (p + 9)%nat = Some h3 →
  let H (s : string) := JsNumber.ToNumber (JsString.slice_0_m1 s) in
  (∃ st' : state,
     loopBody sensorData p thisSensor st = Normal ((p + 9)%nat, k, st')
     ∧ sensorHumid k st' = ((H h1 + H h2 + H h3) / 3)%float)
  ∧ (∀ (s : string) (c : ascii),
       H (s ++ String c EmptyString) = JsNumber.ToNumber s)
  ∧ H "91" = 9%float
  ∧ H "" = 0%float.
Proof.
  intros Hk H0 H1 H3 H4 H5 H6 H7 H8 H9 H.
  split; [|split; [|split]].
  - eexists. split.
    + exact (loopBody_detected sensorData p thisSensor st k t1 t2 t3 h1 h2 h3
               Hk H0 H1 H3 H4 H5 H6 H7 H8 H9).
    + destruct Hk as [-> | ->]; reflexivity.
  - intros s c. unfold H. now rewrite slice_0_m1_last.
  - reflexivity.
  - reflexivity.
Qed.

Lemma humidity_last_character_removed_witness :
  ∃ st' : state,
    loopBody (tokens "SHT,1,A,Detected,20,20,20,91,91,") 0 0 initialState
    = Normal (9%nat, 1%nat, st')
    ∧ sensorHumid 1 st' = 6%float.
Proof.
  exact (proj1 (humidity_last_character_removed
                  (tokens "SHT,1,A,Detected,20,20,20,91,91,") 0 0 initialState 1
                  "20" "20" "20" "91" "91" ""
                  (or_introl eq_refl) eq_refl eq_refl eq_refl eq_refl eq_refl
                  eq_refl eq_refl eq_refl eq_refl)).
Defined.

(** ** The scanner on malformed and on missing records *)

(** C4, at two reports. After a record of channel 1 the marker "SHT"
    followed by "3" is taken with [thisSensor] still 1: its next token is
    read as the status of channel 1, which becomes GENERAL_FAULT although
    its own record said "Detected". And the marker "SHT" followed by "3"
    and one more field hides the record of channel 1 on the next line: the
    cursor moves by two over the tokens it skips, and steps over the
    marker of that record. *)
Theorem stale_thisSensor_faults_channel :
  (∃ st1 st2 : state,
     processData 90 "SHT,1,A,Detected,20,20,20,50%,50%,50%" initialState = Normal st1
     ∧ sensor1State st1 = NO_FAULT
     ∧ processData 90
         ("SHT,1,A,Detected,20,20,20,50%,50%,50%" ++ newline
          ++ "SHT,3,B,Detected,21,21,21,60%,60%,60%") initialState
       = Normal st2
     ∧ sensor1State st2 = GENERAL_FAULT
     ∧ sameReadings st1 st2)
  ∧ processData 90
      ("SHT,3,B" ++ newline ++ "SHT,1,A,Detected,20,20,20,91%,91%,91%") initialState
    = Normal initialState.
Proof.
  split.
  - eexists. eexists.
    split; [vm_compute; reflexivity|]. split; [reflexivity|].
    split; [vm_compute; reflexivity|]. repeat split.
  - vm_compute. reflexivity.
Qed.

(** C7. When no record of channel [k] starts anywhere in the report, the
    timer callback ends (normally or by a TypeError, never out of fuel) with
    the health, the temperature and the humidity of channel [k] as they were
    before it. *)
Theorem absent_channel_untouched (alertThreshold : float) (report : string)
  (st : state) (k : nat) :
  k = 1%nat ∨ k = 2%nat →
  hasRecordFor (tokens report) k = false →
  let result := processData alertThreshold report st in
  result ≠ OutOfFuel
  ∧ sensorState k (stateAfter result st) = sensorState k st
  ∧ sensorTemp k (stateAfter result st) = sensorTemp k st
  ∧ sensorHumid k (stateAfter result st) = sensorHumid k st.
Proof.
  intros Hk Hno result. split; [apply processData_terminates|].
  subst result. unfold processData, scanRecords.
  pose proof (scanLoop_other_channel (tokens report) k Hk Hno
                (S (length (tokens report))) 0 0 st (or_introl eq_refl)) as Hs.
  destruct (scanLoop _ _ _ _ _) as [s|s|]; cbn [stateAfter] in *; try exact Hs.
  destruct Hs as (Hs & Ht & Hh).
  destruct (alertStep_sameChannel alertThreshold k s) as (Hs' & Ht' & Hh').
  repeat split; congruence.
Qed.

Lemma absent_channel_untouched_witness :
  let report := "SHT,1,A,Detected,20,20,20,91%,91%,91%" in
  let st := setSensor2State GENERAL_FAULT (setSensor2Reading 19 55 initialState) in
  let result := processData 90 report st in
  result ≠ OutOfFuel
  ∧ sensorState 2 (stateAfter result st) = GENERAL_FAULT
  ∧ sensorTemp 2 (stateAfter result st) = 19%float
  ∧ sensorHumid 2 (stateAfter result st) = 55%float.
Proof.
  exact (absent_channel_untouched 90 "SHT,1,A,Detected,20,20,20,91%,91%,91%"
           (setSensor2State GENERAL_FAULT (setSensor2Reading 19 55 initialState)) 2
           (or_intror eq_refl) eq_refl).
Defined.

(** ** The poll scheduler *)

Section SchedulerFacts.

Variable rev : revision.
Variable alertThreshold : float.

(** [pollState] leaves exactly the timer it arms when every armed poll
    timer was the one [stateTimer] named. *)
Lemma pollState_rearms (m : machine) :
  timerTracked m → pollTimers (pollState m) = {[nextHandle m]}.
Proof.
  unfold timerTracked, pollState. intros Ht. cbn [pollTimers].
  destruct (stateTimer m) as [h0|] eqn:E.
  - apply set_eq. intros x. rewrite elem_of_union, elem_of_difference, !elem_of_singleton.
    split; [intros [[Hx Hn]|Hx]; [|exact Hx]|auto].
    specialize (Ht x Hx). congruence.
  - apply set_eq. intros x. rewrite elem_of_union, !elem_of_singleton.
    split; [intros [Hx|Hx]; [|exact Hx]|auto].
    specialize (Ht x Hx). discriminate.
Qed.

Lemma pollState_timerTracked (m : machine) :
  timerTracked m → timerTracked (pollState m).
Proof.
  intros Ht h Hh. rewrite (pollState_rearms m Ht) in Hh.
  apply elem_of_singleton in Hh. subst. reflexivity.
Qed.

Lemma processAndRearm_timerTracked (text : string) (m : machine) :
  timerTracked m → timerTracked (processAndRearm alertThreshold text m).
Proof.
  intros Ht. unfold processAndRearm.
  destruct (processData _ _ _); [|exact Ht|exact Ht].
  apply pollState_timerTracked. exact Ht.
Qed.

Lemma step_timerTracked (m : machine) (e : event) :
  timerTracked m → timerTracked (step rev alertThreshold m e).
Proof.
  intros Ht. unfold step. destruct (uncaught m); [exact Ht|].
  destruct e as [|h|k c|k c|k|k|k].
  - now apply pollState_timerTracked.
  - unfold onPollTimeout. case_decide; [|exact Ht].
    intros x Hx. cbn in Hx |- *. apply Ht.
    apply elem_of_difference in Hx as [Hx _]. exact Hx.
  - unfold onResponse. repeat case_match; exact Ht.
  - unfold onData. repeat case_match; exact Ht.
  - unfold onEnd. repeat case_match; exact Ht.
  - unfold onError. repeat case_match; exact Ht.
  - unfold onProcTimeout. case_decide; [|exact Ht].
    repeat case_match; first [apply processAndRearm_timerTracked
                             |apply pollState_timerTracked]; exact Ht.
Qed.

Lemma run_timerTracked (evs : list event) (m : machine) :
  timerTracked m → timerTracked (run rev alertThreshold m evs).
Proof.
  revert m. induction evs as [|e evs IH]; intros m Ht; [exact Ht|].
  apply IH, step_timerTracked, Ht.
Qed.

Lemma initialMachine_timerTracked : timerTracked initialMachine.
Proof. intros h Hh. cbn in Hh. set_solver. Qed.

(** A chain that has something armed has one trigger pending. *)
Lemma singleChain_pending (m : machine) :
  singleChain m → (pendingTriggers m <= 1)%nat.
Proof.
  unfold singleChain, pendingTriggers.
  intros [[-> ->] | [(h & -> & _ & ->) | (k & -> & ->)]];
    rewrite ?size_empty, ?size_singleton; lia.
Qed.

Lemma pollState_singleChain (m : machine) :
  singleChain m → procTimers m = ∅ → singleChain (pollState m).
Proof.
  intros Hc Hp. right. left. exists (nextHandle m).
  split; [|split; [reflexivity|exact Hp]].
  apply pollState_rearms.
  destruct Hc as [[Hq _] | [(h & Hq & Hs & _) | (k & _ & Hk)]].
  - intros x Hx. rewrite Hq in Hx. set_solver.
  - intros x Hx. rewrite Hq in Hx. apply elem_of_singleton in Hx. congruence.
  - rewrite Hk in Hp. exfalso. apply (non_empty_singleton_L (C := gset nat) k). exact Hp.
Qed.

Lemma processAndRearm_singleChain (text : string) (m : machine) :
  pollTimers m = ∅ → procTimers m = ∅ →
  singleChain (processAndRearm alertThreshold text m).
Proof.
  intros Hq Hp. unfold processAndRearm.
  destruct (processData _ _ _).
  - apply pollState_singleChain; [left; split; assumption|exact Hp].
  - left. split; assumption.
  - left. split; assumption.
Qed.

(** Every event but a call of [getServices] keeps the chain single. *)
Lemma step_singleChain (m : machine) (e : event) :
  e ≠ GetServices → singleChain m → singleChain (step rev alertThreshold m e).
Proof.
  intros He Hc. unfold step. destruct (uncaught m); [exact Hc|].
  destruct e as [|h|k c|k c|k|k|k]; [contradiction| | | | | |].
  - unfold onPollTimeout. case_decide as Hin; [|exact Hc].
    destruct Hc as [[Hq _] | [(h0 & Hq & _ & Hp) | (k & Hq & _)]];
      [rewrite Hq in Hin; now apply not_elem_of_empty in Hin|
      |rewrite Hq in Hin; now apply not_elem_of_empty in Hin].
    right. right. exists (nextHandle m). cbn. rewrite Hq, Hp in *.
    apply elem_of_singleton in Hin. subst h0.
    split; [apply difference_diag_L|apply union_empty_l_L].
  - unfold onResponse. repeat case_match; exact Hc.
  - unfold onData. repeat case_match; exact Hc.
  - unfold onEnd. repeat case_match; exact Hc.
  - unfold onError. repeat case_match; exact Hc.
  - unfold onProcTimeout. case_decide as Hin; [|exact Hc].
    destruct Hc as [[_ Hp] | [(h0 & _ & _ & Hp) | (k0 & Hq & Hp)]];
      [rewrite Hp in Hin; now apply not_elem_of_empty in Hin
      |rewrite Hp in Hin; now apply not_elem_of_empty in Hin|].
    assert (Hp' : procTimers m ∖ {[k]} = ∅).
    { rewrite Hp in Hin |- *. apply elem_of_singleton in Hin. subst k0.
      apply difference_diag_L. }
    repeat case_match;
      first [apply processAndRearm_singleChain; [exact Hq|exact Hp']
            |apply pollState_singleChain; [left; split; [exact Hq|exact Hp']|exact Hp']].
Qed.

Lemma run_singleChain (evs : list event) (m : machine) :
  Forall (λ e, e ≠ GetServices) evs → singleChain m →
  singleChain (run rev alertThreshold m evs).
Proof.
  revert m. induction evs as [|e evs IH]; intros m Hall Hc; [exact Hc|].
  inversion Hall as [|? ? He Hall']; subst.
  apply IH; [exact Hall'|]. apply step_singleChain; assumption.
Qed.

(** Calls of [getServices] one after the other, before any timer expires,
    leave one chain and no processing timer. *)
Lemma start_singleChain (n : nat) :
  let m := run rev alertThreshold initialMachine (replicate n GetServices) in
  singleChain m ∧ procTimers m = ∅ ∧ uncaught m = false.
Proof.
  cbn zeta.
  assert (G : ∀ m, singleChain m ∧ procTimers m = ∅ ∧ uncaught m = false →
                   let m' := run rev alertThreshold m (replicate n GetServices) in
                   singleChain m' ∧ procTimers m' = ∅ ∧ uncaught m' = false).
  { induction n as [|n IH]; intros m Hm; [exact Hm|].
    cbn. apply IH. destruct Hm as (Hc & Hp & Hu).
    unfold step. rewrite Hu. split; [|split].
    - apply pollState_singleChain; assumption.
    - exact Hp.
    - exact Hu. }
  apply G. split; [left; split; reflexivity|split; reflexivity].
Qed.

End SchedulerFacts.

Lemma run_app (rev : revision) (alertThreshold : float) (m : machine)
  (evs1 evs2 : list event) :
  run rev alertThreshold m (evs1 ++ evs2)
  = run rev alertThreshold (run rev alertThreshold m evs1) evs2.
Proof. apply fold_left_app. Qed.

(** C8, as the source has it. After any number of calls of [getServices]
    in succession, and whatever order the timers and the HTTP callbacks then
    run in, the timers form one chain: at most one trigger is pending, so
    while the 3000 ms timer of a cycle is pending no poll timer is armed,
    and the next cycle is armed only by the callback of that timer. One
    call or more leave exactly one poll timer armed. *)
Theorem one_trigger_pending (rev : revision) (alertThreshold : float) (n : nat)
  (evs : list event) :
  Forall (λ e, e ≠ GetServices) evs →
  let started := run rev alertThreshold initialMachine (replicate n GetServices) in
  let m := run rev alertThreshold initialMachine (replicate n GetServices ++ evs) in
  ((1 <= n)%nat → size (pollTimers started) = 1%nat ∧ procTimers started = ∅)
  ∧ singleChain m
  ∧ (pendingTriggers m <= 1)%nat
  ∧ (procTimers m ≠ ∅ → pollTimers m = ∅).
Proof.
  intros Hall started m.
  destruct (start_singleChain rev alertThreshold n) as (Hc & Hp & Hu).
  fold started in Hc, Hp, Hu.
  assert (Hm : singleChain m).
  { subst m. rewrite run_app. apply run_singleChain; assumption. }
  split; [|split; [exact Hm|split; [now apply singleChain_pending|]]].
  - intros Hn. split; [|exact Hp].
    destruct n as [|n]; [lia|].
    subst started. replace (S n) with (n + 1)%nat by lia.
    rewrite replicate_add, run_app. cbn [replicate run fold_left].
    destruct (start_singleChain rev alertThreshold n) as (Hc' & Hp' & Hu').
    unfold step. rewrite Hu'.
    rewrite pollState_rearms; [apply size_singleton|].
    apply run_timerTracked, initialMachine_timerTracked.
  - intros Hne.
    destruct Hm as [[_ Hq] | [(h & _ & _ & Hq) | (k & Hq & _)]];
      [contradiction|contradiction|exact Hq].
Qed.

Lemma one_trigger_pending_witness :
  let evs := [PollTimeout 1; Response 2 200;
              Data 2 "SHT,1,A,Detected,20,20,20,91%,91%,91%"; End_ 2;
              ProcTimeout 2; PollTimeout 3] in
  let started := run IndexJs 90 initialMachine (replicate 2 GetServices) in
  let m := run IndexJs 90 initialMachine (replicate 2 GetServices ++ evs) in
  ((1 <= 2)%nat → size (pollTimers started) = 1%nat ∧ procTimers started = ∅)
  ∧ singleChain m
  ∧ (pendingTriggers m <= 1)%nat
  ∧ (procTimers m ≠ ∅ → pollTimers m = ∅).
Proof.
  apply (one_trigger_pending IndexJs 90 2).
  repeat constructor; discriminate.
Defined.

(** C8, as the specification words it, fails: the callback of the 3000 ms
    timer arms the next cycle whether or not the request has been answered,
    so a request still unanswered when the next poll timer expires is in
    flight together with the request of the next cycle. *)
Lemma slow_fetch_overlaps_next :
  let m := run IndexJs 90 initialMachine
             [GetServices; PollTimeout 0; ProcTimeout 1; PollTimeout 2] in
  (uncaught m = false ∧ requests m !! 1%nat = Some false
   ∧ requests m !! 3%nat = Some false ∧ size (requests m) = 2%nat)
  ∧ ¬ (∀ evs : list event,
         Forall (λ e, e ≠ GetServices) evs →
         (size (requests (run IndexJs 90 initialMachine (GetServices :: evs))) <= 1)%nat).
Proof.
  cbn zeta. split; [vm_compute; repeat split|].
  intros H.
  specialize (H [PollTimeout 0; ProcTimeout 1; PollTimeout 2]).
  assert (Hall : Forall (λ e, e ≠ GetServices)
                   [PollTimeout 0; ProcTimeout 1; PollTimeout 2])
    by (repeat constructor; discriminate).
  specialize (H Hall). vm_compute in H. lia.
Qed.

(** C9, as the source has it. The class has no method that stops the
    polling; [pollState] alone clears a timer, and it arms a new one at
    once. In every state the event loop can reach, a call of [pollState]
    leaves exactly the timer it arms, a second call in succession replaces
    that timer by another, and neither call assigns the accessory state,
    the processing timers or the requests; with no handle in [stateTimer]
    no poll timer is armed and the call is safe. *)
Theorem pollState_cancels_and_rearms (rev : revision) (alertThreshold : float)
  (evs : list event) :
  let m := run rev alertThreshold initialMachine evs in
  pollTimers (pollState m) = {[nextHandle m]}
  ∧ pollTimers (pollState (pollState m)) = {[S (nextHandle m)]}
  ∧ (stateTimer m = None → pollTimers m = ∅)
  ∧ accessory (pollState m) = accessory m
  ∧ procTimers (pollState m) = procTimers m
  ∧ requests (pollState m) = requests m.
Proof.
  intros m.
  assert (Ht : timerTracked m) by apply run_timerTracked, initialMachine_timerTracked.
  split; [now apply pollState_rearms|].
  split; [now apply pollState_rearms, pollState_timerTracked|].
  split; [|repeat split].
  intros Hn. apply set_eq. intros x. split; [|intros Hx; set_solver].
  intros Hx. specialize (Ht x Hx). congruence.
Qed.

(** C9, as the specification words it, fails: with a poll timer pending,
    no method of the class leaves the accessory without a pending trigger. *)
Lemma no_method_stops_polling :
  let m := run IndexJs 90 initialMachine [GetServices] in
  size (pollTimers m) = 1%nat
  ∧ ¬ (∃ mth : method, pendingTriggers (call mth m) = 0%nat).
Proof.
  cbn zeta. split; [vm_compute; reflexivity|].
  intros [mth H]. destruct mth; vm_compute in H; discriminate.
Qed.

(** ** Transport failures *)




(** In the revision that reports StatusFault, a failed request and a
    status other than 200 leave [deviceState] at GENERAL_FAULT. *)
Lemma signalled_failure_sets_deviceState (alertThreshold : float) (m : machine)
  (h : nat) (failure : list event) :
  uncaught m = false →
  h ∈ pollTimers m →
  failure ≠ [] →
  transportFailure (nextHandle m) failure →
  deviceState
    (accessory (run StatusFault alertThreshold m
                  ([PollTimeout h] ++ failure ++ [ProcTimeout (nextHandle m)])))
  = GENERAL_FAULT.
Proof.
  intros Hu Hh Hne Hf.
  destruct m as [acc tm pt prt req raw k unc]. cbn in Hu, Hh, Hf |- *. subst unc.
  assert (Hk : k ∈ prt ∪ {[k]}) by set_solver.
  assert (E1 : step StatusFault alertThreshold (mkMachine acc tm pt prt req raw k false)
                 (PollTimeout h)
               = mkMachine acc tm (pt ∖ {[h]}) (prt ∪ {[k]}) (<[k := false]> req)
                   (<[k := ""]> raw) (S k) false).
  { unfold step, onPollTimeout; cbn. rewrite (decide_True _ _ Hh). reflexivity. }
  destruct Hf as [|statusCode Hc|]; [| |contradiction]; cbn [app fold_left]; rewrite E1.
  - unfold step, onError. cbn. rewrite lookup_insert_eq.
    unfold withAccessory, withRequests, onProcTimeout. cbn.
    rewrite (decide_True _ _ Hk). reflexivity.
  - apply Z.eqb_neq in Hc.
    unfold step, onResponse. cbn. rewrite lookup_insert_eq, Hc.
    unfold withAccessory, withRequests, onProcTimeout. cbn.
    rewrite (decide_True _ _ Hk). reflexivity.
Qed.

(** C3, at the failing cycles. After a cycle that read 20 and 91 for
    channel 1, a cycle whose request fails or is answered with status 500
    leaves [deviceState] at NO_FAULT in index.js, and a cycle that receives
    nothing within the 3000 ms leaves it at NO_FAULT in the revision that
    reports StatusFault as well, where the failed request does set
    GENERAL_FAULT. The readings are those of the cycle before in every
    case. *)
Theorem transport_failure_without_device_fault :
  let firstCycle :=
    [GetServices; PollTimeout 0; Response 1 200;
     Data 1 "SHT,1,A,Detected,20,20,20,91%,91%,91%"; End_ 1; ProcTimeout 1] in
  let after (rev : revision) (failure : list event) :=
    accessory (run rev 90 initialMachine
                 (firstCycle ++ [PollTimeout 2] ++ failure ++ [ProcTimeout 3])) in
  let before (rev : revision) := accessory (run rev 90 initialMachine firstCycle) in
  (sensor1Temp (before IndexJs) = 20%float ∧ sensor1Humid (before IndexJs) = 91%float)
  ∧ (deviceState (after IndexJs [Error 3]) = NO_FAULT
     ∧ sameReadings (before IndexJs) (after IndexJs [Error 3]))
  ∧ (deviceState (after IndexJs [Response 3 500]) = NO_FAULT
     ∧ sameReadings (before IndexJs) (after IndexJs [Response 3 500]))
  ∧ (deviceState (after IndexJs []) = NO_FAULT
     ∧ sameReadings (before IndexJs) (after IndexJs []))
  ∧ (deviceState (after StatusFault []) = NO_FAULT
     ∧ sameReadings (before StatusFault) (after StatusFault []))
  ∧ deviceState (after StatusFault [Error 3]) = GENERAL_FAULT
  ∧ deviceState (after StatusFault [Response 3 500]) = GENERAL_FAULT.
Proof.
  cbn zeta. vm_compute. repeat split.
Qed.

(** ** The reports of the documentation *)

(** The report [SHT,1,A,Detected,20,20,20,91%,91%,91%] with threshold 90
    and no alert before: humidity 91, alert raised. *)
Example report_raises_alert :
  processData 90 "SHT,1,A,Detected,20,20,20,91%,91%,91%" initialState
  = Normal (setAlertState LEAK_DETECTED (setSensor1Reading 20 91 initialState)).
Proof. vm_compute. reflexivity. Qed.

(** Two lines, one per channel; the second channel was not detected. *)
Example report_two_channels :
  processData 90
    ("SHT,1,Soil Stack,Detected,22.5,22.5,22.5,51.5%,51.5%,51.5%" ++ newline
     ++ "SHT,2,Shower Tray,Not Detected,0,0,0,0%,0%,0%" ++ newline) initialState
  = Normal (setSensor2State GENERAL_FAULT (setSensor1Reading 22.5 51.5 initialState)).
Proof. vm_compute. reflexivity. Qed.

(** A "Detected" record cut short before its last humidity sample: the
    callback is left by a TypeError, nothing is assigned. *)
Example truncated_record_throws :
  processData 90 "SHT,1,A,Detected,20,20,20,91%,91%" initialState
  = TypeError initialState.
Proof. vm_compute. reflexivity. Qed.

(** After the TypeError the polling is not armed again. *)
Example truncated_record_stops_polling :
  let m := run IndexJs 90 initialMachine
             [GetServices; PollTimeout 0; Response 1 200;
              Data 1 "SHT,1,A,Detected,20,20,20,91%,91%"; End_ 1; ProcTimeout 1] in
  uncaught m = true ∧ pendingTriggers m = 0%nat.
Proof. vm_compute. split; reflexivity. Qed.

(** * Further properties of the engine *)

(** ** The alert state machine, again *)

Lemma ltb_antisym (x y : float) : (x <? y)%float = true → (y <? x)%float = false.
Proof.
  rewrite !ltb_spec. unfold SFltb.
  rewrite (SFcompare_antisym (Prim2SF x) (Prim2SF y)).
  destruct (SFcompare (Prim2SF x) (Prim2SF y)) as [[]|]; simpl; intros;
    auto; discriminate.
Qed.

Lemma ltb_nan_l (x : float) : (nan <? x)%float = false.
Proof. rewrite ltb_spec. reflexivity. Qed.

Lemma ltb_nan_r (x : float) : (x <? nan)%float = false.
Proof.
  rewrite ltb_spec. change (Prim2SF nan) with S754_nan.
  unfold SFltb. destruct (Prim2SF x) as [[]|[]| |[]]; reflexivity.
Qed.

(** X1. Evaluating the alert state machine a second time on the same
    readings changes nothing: with unchanged humidities the alert does not
    flap, whatever the threshold and the readings are. *)
Theorem alertStep_idempotent (alertThreshold : float) (st : state) :
  alertStep alertThreshold (alertStep alertThreshold st)
  = alertStep alertThreshold st.
Proof.
  destruct st as [a d s1 t1 h1 s2 t2 h2]. unfold alertStep.
  destruct a; cbn.
  - destruct (alertThreshold <? h1)%float eqn:E1; cbn.
    + now rewrite (ltb_antisym _ _ E1).
    + destruct (alertThreshold <? h2)%float eqn:E2; cbn.
      * now rewrite (ltb_antisym _ _ E2), andb_false_r.
      * now rewrite E1, E2.
  - destruct (h1 <? alertThreshold)%float eqn:E1; cbn.
    + destruct (h2 <? alertThreshold)%float eqn:E2; cbn.
      * now rewrite (ltb_antisym _ _ E1), (ltb_antisym _ _ E2).
      * now rewrite E1, E2.
    + now rewrite E1.
Qed.

(** X2. A NaN humidity takes part in the comparisons and fails them all: a
    channel whose humidity is NaN never raises the alert by itself, and
    while it is NaN an alert that is raised is never cleared, whatever the
    other channel reads. *)
Theorem nan_humidity_latches_alert (alertThreshold : float) (st : state) :
  sensor1Humid st = nan ∨ sensor2Humid st = nan →
  (AlertState st = LEAK_DETECTED →
   alertStep alertThreshold st = st)
  ∧ (AlertState st = LEAK_NOT_DETECTED →
     sensor1Humid st = nan → sensor2Humid st = nan →
     alertStep alertThreshold st = st).
Proof.
  destruct st as [a d s1 t1 h1 s2 t2 h2]. unfold alertStep. cbn.
  intros Hn. split.
  - intros ->. destruct Hn as [-> | ->];
      rewrite ltb_nan_l, ?andb_false_r; reflexivity.
  - intros -> -> ->. now rewrite ltb_nan_r.
Qed.

Lemma nan_humidity_latches_alert_witness :
  let st := setAlertState LEAK_DETECTED (setSensor1Reading 20 nan initialState) in
  (AlertState st = LEAK_DETECTED → alertStep 90 st = st)
  ∧ (AlertState st = LEAK_NOT_DETECTED →
     sensor1Humid st = nan → sensor2Humid st = nan → alertStep 90 st = st).
Proof.
  exact (nan_humidity_latches_alert 90
           (setAlertState LEAK_DETECTED (setSensor1Reading 20 nan initialState))
           (or_introl eq_refl)).
Defined.

(** ** The record scanner, again *)

(** More fuel than the loop needs gives the same result. *)
Lemma scanLoop_fuel_mono (sensorData : list string) (f1 f2 i thisSensor : nat)
  (st : state) :
  (f1 <= f2)%nat →
  scanLoop f1 sensorData i thisSensor st ≠ OutOfFuel →
  scanLoop f2 sensorData i thisSensor st = scanLoop f1 sensorData i thisSensor st.
Proof.
  revert f2 i thisSensor st.
  induction f1 as [|f1 IH]; intros f2 i thisSensor st Hle Hne; [now cbn in Hne|].
  destruct f2 as [|f2]; [lia|]. cbn [scanLoop] in Hne |- *.
  destruct (loopBody sensorData i thisSensor st) as [[[i' ts'] st']|st'|];
    try reflexivity.
  destruct (S i' <? length sensorData)%nat; [|reflexivity].
  apply IH; [lia|exact Hne].
Qed.

Lemma scanLoop_half_fuel (sensorData : list string) (fuel i thisSensor : nat)
  (st : state) :
  ((length sensorData - i) / 2 < fuel)%nat →
  scanLoop fuel sensorData i thisSensor st ≠ OutOfFuel.
Proof.
  revert i thisSensor st.
  induction fuel as [|fuel IH]; intros i thisSensor st Hf; [lia|].
  cbn [scanLoop].
  destruct (loopBody sensorData i thisSensor st) as [[[i' ts'] st']|st'|] eqn:E.
  - apply loopBody_advances in E.
    destruct (S i' <? length sensorData)%nat eqn:El; [|discriminate].
    apply Nat.ltb_lt in El. apply IH.
    pose proof (Nat.Div0.div_le_mono (length sensorData - S i' + 1 * 2)
                  (length sensorData - i) 2) as Hm.
    rewrite Nat.div_add in Hm by lia. lia.
  - discriminate.
  - now apply loopBody_fuel in E.
Qed.

(** X3. The loop ends after at most [n / 2 + 1] passes over [n] tokens:
    that much fuel gives the result of the scan, which is never the
    out-of-fuel one, since every pass moves the cursor by two or more. *)
Theorem scan_passes_bounded (sensorData : list string) (st : state) :
  scanLoop (length sensorData / 2 + 1) sensorData 0 0 st = scanRecords sensorData st
  ∧ scanRecords sensorData st ≠ OutOfFuel.
Proof.
  split; [|apply scanRecords_terminates].
  symmetry. unfold scanRecords. apply scanLoop_fuel_mono.
  - assert ((length sensorData / 2 <= length sensorData)%nat); [|lia].
    apply Nat.Div0.div_le_upper_bound; lia.
  - apply scanLoop_half_fuel. rewrite Nat.sub_0_r. lia.
Qed.

(** X4. A "Detected" record of channel 1 or 2 that the report ends before
    its third humidity sample makes the pass throw: the loop ends by a
    TypeError and no field of the state is assigned by that record. *)
Theorem truncated_detected_record_throws (sensorData : list string)
  (fuel p thisSensor : nat) (st : state) (k : nat) :
  k = 1%nat ∨ k = 2%nat →
  sensorData !! p = Some "SHT" →
  sensorData !! (p + 1)%nat = Some (indexToken k) →
  sensorData !! (p + 3)%nat = Some "Detected" →
  (length sensorData <= p + 9)%nat →
  loopBody sensorData p thisSensor st = TypeError st
  ∧ scanLoop (S fuel) sensorData p thisSensor st = TypeError st.
Proof.
  intros Hk H0 H1 H3 Hlen.
  assert (Hb : loopBody sensorData p thisSensor st = TypeError st).
  { destruct (cursor_offsets p) as (E3 & E4 & E5 & E6 & E7 & E8 & E9).
    replace (p + 1)%nat with (S p) in H1 by lia.
    assert (H9 : sensorData !! (p + 9)%nat = None) by (apply lookup_ge_None; lia).
    unfold loopBody. rewrite H0. cbn [looseEq]. rewrite String.eqb_refl.
    rewrite H1. cbn [looseEq].
    destruct (indexToken_cases k Hk) as [[-> ->] | [-> ->]]; cbn -[average3 lookup Nat.add];
      rewrite E7, E8, E9, E3, H3, H9; cbn [looseEq]; rewrite String.eqb_refl;
      repeat case_match; reflexivity. }
  split; [exact Hb|]. cbn [scanLoop]. now rewrite Hb.
Qed.

Lemma truncated_detected_record_throws_witness :
  let sensorData := tokens "SHT,2,B,Detected,21,21,21,60%,60%" in
  loopBody sensorData 0 0 initialState = TypeError initialState
  ∧ scanLoop 1 sensorData 0 0 initialState = TypeError initialState.
Proof.
  apply (truncated_detected_record_throws
           (tokens "SHT,2,B,Detected,21,21,21,60%,60%") 0 0 0 initialState 2
           (or_intror eq_refl) eq_refl eq_refl eq_refl).
  vm_compute. lia.
Defined.

Lemma markerAtEven_false (sensorData : list string) (j : nat) :
  markerAtEven sensorData = false →
  looseEq (sensorData !! (2 * j)%nat) "SHT" = false.
Proof.
  unfold markerAtEven. intros H.
  destruct (looseEq (sensorData !! (2 * j)%nat) "SHT") eqn:E; [|reflexivity].
  assert (Hj : (j < length sensorData)%nat).
  { destruct (sensorData !! (2 * j)%nat) eqn:El; [|discriminate].
    apply lookup_lt_Some in El. lia. }
  assert (Hex : existsb (λ j, looseEq (sensorData !! (2 * j)%nat) "SHT")
                  (seq 0 (length sensorData)) = true).
  { apply existsb_exists. exists j. split; [apply in_seq; lia|exact E]. }
  congruence.
Qed.

(** X5. The cursor moves by two over the tokens it skips and starts at 0:
    when no token at an even position is the marker, no record is read and
    the state is left as it was, whatever stands at the odd positions. *)
Theorem markers_at_odd_positions_unseen (sensorData : list string) (st : state) :
  markerAtEven sensorData = false →
  scanRecords sensorData st = Normal st.
Proof.
  intros Hm.
  assert (G : ∀ fuel j thisSensor,
             scanLoop fuel sensorData (2 * j) thisSensor st = Normal st
             ∨ scanLoop fuel sensorData (2 * j) thisSensor st = OutOfFuel).
  { induction fuel as [|fuel IH]; intros j thisSensor; [now right|].
    cbn [scanLoop]. unfold loopBody.
    rewrite (markerAtEven_false sensorData j Hm).
    destruct (S (S (2 * j)) <? length sensorData)%nat; [|now left].
    replace (S (S (2 * j))) with (2 * S j)%nat by lia. apply IH. }
  destruct (G (S (length sensorData)) 0%nat 0%nat) as [E|E]; [exact E|].
  now apply scanRecords_terminates in E.
Qed.

Lemma markers_at_odd_positions_unseen_witness :
  scanRecords (tokens ",SHT,1,A,Detected,20,20,20,91%,91%,91%") initialState
  = Normal initialState.
Proof.
  exact (markers_at_odd_positions_unseen
           (tokens ",SHT,1,A,Detected,20,20,20,91%,91%,91%") initialState eq_refl).
Defined.

(** ** Reports in the layout of the device *)

Lemma lookup_app_plus {A : Type} (pre x : list A) (j : nat) :
  ((pre ++ x)%list) !! (length pre + j)%nat = x !! j.
Proof.
  rewrite lookup_app_r by lia. f_equal. lia.
Qed.

Lemma loopBody_skip (sensorData : list string) (i thisSensor : nat) (st : state) :
  looseEq (sensorData !! i) "SHT" = false →
  loopBody sensorData i thisSensor st = Normal (S i, thisSensor, st).
Proof. unfold loopBody. now intros ->. Qed.

Lemma lineTokens_length (l : reportLine) : length (lineTokens l) = 10%nat.
Proof. destruct l as [k loc status [[t1 t2] t3] [[h1 h2] h3]]. reflexivity. Qed.

(** The pass that starts on the marker of a line. *)
Lemma loopBody_line (pre rest : list string) (l : reportLine) (thisSensor : nat)
  (st : state) :
  lineChannel l = 1%nat ∨ lineChannel l = 2%nat →
  loopBody (pre ++ lineTokens l ++ rest)%list (length pre) thisSensor st
  = Normal ((if String.eqb (lineStatus l) "Detected"
             then length pre + 9 else length pre + 3)%nat,
            lineChannel l, applyLine st l).
Proof.
  destruct l as [k loc status [[t1 t2] t3] [[h1 h2] h3]]. cbn [lineChannel lineStatus].
  intros Hk. unfold applyLine. cbn [lineChannel lineStatus lineTemps lineHumids].
  set (sd := (pre ++ _ ++ rest)%list).
  assert (L : ∀ j x, ((lineTokens (mkLine k loc status (t1, t2, t3) (h1, h2, h3))
                         ++ rest)%list) !! j = Some x →
                     sd !! (length pre + j)%nat = Some x).
  { intros j x Hx. unfold sd. now rewrite lookup_app_plus. }
  assert (L0 : sd !! length pre = Some "SHT").
  { rewrite <- (Nat.add_0_r (length pre)). apply L. reflexivity. }
  destruct (String.eqb status "Detected") eqn:Es.
  - apply String.eqb_eq in Es. subst status.
    apply (loopBody_detected sd _ thisSensor st k t1 t2 t3 h1 h2 h3 Hk L0);
      apply L; reflexivity.
  - apply String.eqb_neq in Es.
    apply (loopBody_not_detected sd _ thisSensor st k Hk L0);
      [apply L; reflexivity|].
    rewrite (L 3%nat status eq_refl). congruence.
Qed.

Lemma tokens_of_lines_length (lines : list reportLine) :
  length (concat (map lineTokens lines)) = (10 * length lines)%nat.
Proof.
  induction lines as [|l rest IH]; [reflexivity|].
  cbn [map concat length]. rewrite length_app, lineTokens_length, IH. lia.
Qed.

Lemma scanLoop_lines (lines : list reportLine) :
  ∀ (pre : list string) (thisSensor : nat) (st : state) (fuel : nat),
    lines ≠ [] →
    forallb lineInStep lines = true →
    (4 * length lines <= fuel)%nat →
    scanLoop fuel (pre ++ concat (map lineTokens lines))%list (length pre) thisSensor st
    = Normal (fold_left applyLine lines st).
Proof.
  induction lines as [|l rest IH]; intros pre thisSensor st fuel Hne Hall Hfuel;
    [contradiction|].
  cbn [map concat forallb fold_left length] in *.
  apply andb_true_iff in Hall as [Hl Hall].
  set (R := concat (map lineTokens rest)) in *.
  set (sd := (pre ++ lineTokens l ++ R)%list).
  assert (Hlen : length sd = (length pre + 10 + 10 * length rest)%nat).
  { unfold sd, R. rewrite !length_app, lineTokens_length, tokens_of_lines_length. lia. }
  assert (K : ∀ f ts' st', (4 * length rest <= f)%nat →
            (if (S (length pre + 9) <? length sd)%nat
             then scanLoop f sd (S (length pre + 9)) ts' st'
             else Normal st')
            = Normal (fold_left applyLine rest st')).
  { intros f ts' st' Hf. rewrite Hlen.
    destruct rest as [|l' rest'] eqn:Er.
    - cbn [length]. replace (S (length pre + 9) <? length pre + 10 + 10 * 0)%nat
        with false by (symmetry; apply Nat.ltb_ge; lia). reflexivity.
    - rewrite <- Er in *.
      replace (S (length pre + 9) <? length pre + 10 + 10 * length rest)%nat
        with true by (symmetry; apply Nat.ltb_lt; rewrite Er; cbn [length]; lia).
      unfold sd. rewrite app_assoc.
      replace (S (length pre + 9)) with (length (pre ++ lineTokens l)%list)
        by (rewrite length_app, lineTokens_length; lia).
      apply IH; [rewrite Er; discriminate|exact Hall|exact Hf]. }
  apply andb_true_iff in Hl as [Hk Hs].
  assert (Hk' : lineChannel l = 1%nat ∨ lineChannel l = 2%nat).
  { apply orb_true_iff in Hk as [Hk|Hk]; apply Nat.eqb_eq in Hk; auto. }
  pose proof (loopBody_line pre R l thisSensor st Hk') as Hb. fold sd in Hb.
  destruct (String.eqb (lineStatus l) "Detected") eqn:Es.
  - destruct fuel as [|f]; [lia|]. cbn [scanLoop]. rewrite Hb.
    apply K. lia.
  - cbn [orb] in Hs.
    destruct l as [k loc status [[t1 t2] t3] [[h1 h2] h3]].
    cbn [lineTemps lineHumids lineChannel lineStatus] in *.
    apply andb_true_iff in Hs as [Hs H8]. apply andb_true_iff in Hs as [H4 H6].
    apply negb_true_iff in H4, H6, H8.
    assert (L : ∀ j x, ((lineTokens (mkLine k loc status (t1, t2, t3) (h1, h2, h3))
                           ++ R)%list) !! j = Some x →
                       sd !! (length pre + j)%nat = Some x).
    { intros j x Hx. unfold sd. now rewrite lookup_app_plus. }
    assert (S4 : looseEq (sd !! (length pre + 4)%nat) "SHT" = false)
      by (rewrite (L 4%nat t1 eq_refl); exact H4).
    assert (S6 : looseEq (sd !! (length pre + 6)%nat) "SHT" = false)
      by (rewrite (L 6%nat t3 eq_refl); exact H6).
    assert (S8 : looseEq (sd !! (length pre + 8)%nat) "SHT" = false)
      by (rewrite (L 8%nat h2 eq_refl); exact H8).
    destruct fuel as [|[|[|[|f]]]]; try lia.
    cbn [scanLoop]. rewrite Hb.
    replace (S (length pre + 3)) with (length pre + 4)%nat by lia.
    replace (length pre + 4 <? length sd)%nat with true
      by (symmetry; apply Nat.ltb_lt; lia).
    rewrite (loopBody_skip sd _ _ _ S4).
    replace (S (S (length pre + 4))) with (length pre + 6)%nat by lia.
    replace (length pre + 6 <? length sd)%nat with true
      by (symmetry; apply Nat.ltb_lt; lia).
    rewrite (loopBody_skip sd _ _ _ S6).
    replace (S (S (length pre + 6))) with (length pre + 8)%nat by lia.
    replace (length pre + 8 <? length sd)%nat with true
      by (symmetry; apply Nat.ltb_lt; lia).
    rewrite (loopBody_skip sd _ _ _ S8).
    replace (S (length pre + 8)) with (length pre + 9)%nat by lia.
    apply K. lia.
Qed.

(** X6. A report whose tokens are those of lines in the ten-field layout,
    each for channel 1 or 2, is read line by line: the scan ends normally
    and leaves what the lines assign one after the other, so a later line
    of a channel overrides an earlier one, and the callback then runs the
    alert state machine on that state. For a line whose status is not
    "Detected" the tokens the cursor lands on must not be the marker. *)
Theorem report_read_line_by_line (lines : list reportLine) (st : state) :
  forallb lineInStep lines = true →
  scanRecords (concat (map lineTokens lines)) st
  = Normal (fold_left applyLine lines st)
  ∧ (∀ (alertThreshold : float) (report : string),
       tokens report = concat (map lineTokens lines) →
       processData alertThreshold report st
       = Normal (alertStep alertThreshold (fold_left applyLine lines st))).
Proof.
  intros Hall.
  assert (E : scanRecords (concat (map lineTokens lines)) st
              = Normal (fold_left applyLine lines st)).
  { destruct lines as [|l rest] eqn:El; [reflexivity|].
    rewrite <- El in *. unfold scanRecords.
    apply (scanLoop_lines lines [] 0%nat st); [rewrite El; discriminate|exact Hall|].
    rewrite tokens_of_lines_length. lia. }
  split; [exact E|].
  intros alertThreshold report Ht. unfold processData. now rewrite Ht, E.
Qed.

Lemma report_read_line_by_line_witness :
  processData 90
    ("SHT,1,A,Detected,20,20,20,50%,50%,50%" ++ newline
     ++ "SHT,2,B,Failed,0,0,0,0%,0%,0%" ++ newline
     ++ "SHT,1,A,Detected,21,21,21,91%,91%,91%" ++ newline) initialState
  = Normal (alertStep 90
              (setSensor1Reading 21 91 (setSensor2State GENERAL_FAULT initialState))).
Proof.
  exact (proj2 (report_read_line_by_line
                  [mkLine 1 "A" "Detected" ("20", "20", "20") ("50%", "50%", "50%");
                   mkLine 2 "B" "Failed" ("0", "0", "0") ("0%", "0%", "0%");
                   mkLine 1 "A" "Detected" ("21", "21", "21") ("91%", "91%", "91%")]
                  initialState eq_refl)
           90%float
           ("SHT,1,A,Detected,20,20,20,50%,50%,50%" ++ newline
            ++ "SHT,2,B,Failed,0,0,0,0%,0%,0%" ++ newline
            ++ "SHT,1,A,Detected,21,21,21,91%,91%,91%" ++ newline)
           eq_refl).
Defined.

(** ** White space around the report *)

Lemma string_of_list_ascii_app (x y : list ascii) :
  string_of_list_ascii (x ++ y)%list
  = string_of_list_ascii x ++ string_of_list_ascii y.
Proof. induction x as [|c x IH]; simpl; [reflexivity|now rewrite IH]. Qed.

Lemma reverse_app (a b : string) :
  JsString.reverse (a ++ b) = JsString.reverse b ++ JsString.reverse a.
Proof.
  unfold JsString.reverse.
  now rewrite list_ascii_of_string_app, rev_app_distr, string_of_list_ascii_app.
Qed.

Lemma allWhiteSpace_forallb (s : string) :
  allWhiteSpace s = forallb JsString.isWhiteSpace (list_ascii_of_string s).
Proof. induction s as [|c s IH]; simpl; [reflexivity|now rewrite IH]. Qed.

Lemma allWhiteSpace_reverse (w : string) :
  allWhiteSpace w = true → allWhiteSpace (JsString.reverse w) = true.
Proof.
  rewrite !allWhiteSpace_forallb. unfold JsString.reverse.
  rewrite list_ascii_of_string_of_list_ascii, !forallb_forall.
  intros H c Hc. apply H. now apply in_rev.
Qed.

Lemma trimStart_allWhiteSpace (w : string) :
  allWhiteSpace w = true → JsString.trimStart w = "".
Proof.
  induction w as [|c w IH]; simpl; [reflexivity|].
  intros H. apply andb_true_iff in H as [-> H]. now apply IH.
Qed.

Lemma trimStart_skips (w s : string) :
  allWhiteSpace w = true → JsString.trimStart (w ++ s) = JsString.trimStart s.
Proof.
  induction w as [|c w IH]; simpl; [reflexivity|].
  intros H. apply andb_true_iff in H as [-> H]. now apply IH.
Qed.

Lemma trimStart_keeps (s w : string) :
  allWhiteSpace s = false →
  JsString.trimStart (s ++ w) = JsString.trimStart s ++ w.
Proof.
  induction s as [|c s IH]; simpl; [discriminate|].
  destruct (JsString.isWhiteSpace c); simpl; [exact IH|reflexivity].
Qed.

Lemma trim_surrounded (w1 s w2 : string) :
  allWhiteSpace w1 = true → allWhiteSpace w2 = true →
  JsString.trim (w1 ++ s ++ w2) = JsString.trim s.
Proof.
  intros H1 H2. unfold JsString.trim. rewrite (trimStart_skips w1 _ H1).
  destruct (allWhiteSpace s) eqn:Es.
  - rewrite (trimStart_skips s w2 Es), (trimStart_allWhiteSpace w2 H2),
      (trimStart_allWhiteSpace s Es). reflexivity.
  - rewrite (trimStart_keeps s w2 Es), reverse_app.
    now rewrite (trimStart_skips _ _ (allWhiteSpace_reverse w2 H2)).
Qed.

(** X7. White space and line breaks before and after the report do not
    count: the callback ends the same way and leaves the same state as on
    the report alone. *)
Theorem surrounding_white_space_ignored (alertThreshold : float)
  (w1 report w2 : string) (st : state) :
  allWhiteSpace w1 = true → allWhiteSpace w2 = true →
  tokens (w1 ++ report ++ w2) = tokens report
  ∧ processData alertThreshold (w1 ++ report ++ w2) st
    = processData alertThreshold report st.
Proof.
  intros H1 H2.
  assert (E : tokens (w1 ++ report ++ w2) = tokens report)
    by (unfold tokens; now rewrite trim_surrounded).
  split; [exact E|]. unfold processData. now rewrite E.
Qed.

Lemma surrounding_white_space_ignored_witness :
  let report := "SHT,1,A,Detected,20,20,20,91%,91%,91%" in
  let w1 := " " ++ newline in
  let w2 := String JsString.CR newline in
  tokens (w1 ++ report ++ w2) = tokens report
  ∧ processData 90 (w1 ++ report ++ w2) initialState
    = processData 90 report initialState.
Proof.
  exact (surrounding_white_space_ignored 90 (" " ++ newline)
           "SHT,1,A,Detected,20,20,20,91%,91%,91%" (String JsString.CR newline)
           initialState eq_refl eq_refl).
Defined.

(** ** From the text to the tokens *)

Lemma append_empty_r (s : string) : s ++ "" = s.
Proof.
  induction s as [|c s IH]; [reflexivity|].
  change (String c s ++ "") with (String c (s ++ "")). now rewrite IH.
Qed.

Lemma replaceLineBreaks_plain (f s : string) :
  plainField f = true →
  JsString.replaceLineBreaks (f ++ s) = f ++ JsString.replaceLineBreaks s.
Proof.
  induction f as [|c f IH]; [reflexivity|].
  cbn [plainField]. intros H. apply andb_true_iff in H as [Hc Hf].
  apply negb_true_iff, orb_false_iff in Hc as [Hc Hlf].
  apply orb_false_iff in Hc as [_ Hcr].
  change (String c f ++ s) with (String c (f ++ s)).
  cbn [JsString.replaceLineBreaks]. rewrite Hcr, Hlf, (IH Hf). reflexivity.
Qed.

Lemma replaceLineBreaks_separator (sep : separator) (s : string) :
  JsString.replaceLineBreaks (separatorText sep ++ s)
  = String "," (JsString.replaceLineBreaks s).
Proof. destruct sep; reflexivity. Qed.

Lemma split_plain (f : string) : plainField f = true → JsString.split f = [f].
Proof.
  induction f as [|c f IH]; [reflexivity|].
  cbn [plainField]. intros H. apply andb_true_iff in H as [Hc Hf].
  apply negb_true_iff, orb_false_iff in Hc as [Hc _].
  apply orb_false_iff in Hc as [Hc _].
  cbn [JsString.split]. rewrite Hc, (IH Hf). reflexivity.
Qed.

Lemma split_plain_comma (f s : string) :
  plainField f = true →
  JsString.split (f ++ String "," s) = f :: JsString.split s.
Proof.
  induction f as [|c f IH]; [reflexivity|].
  cbn [plainField]. intros H. apply andb_true_iff in H as [Hc Hf].
  apply negb_true_iff, orb_false_iff in Hc as [Hc _].
  apply orb_false_iff in Hc as [Hc _].
  change (String c f ++ String "," s) with (String c (f ++ String "," s)).
  cbn [JsString.split]. rewrite Hc, (IH Hf). reflexivity.
Qed.

Lemma split_reportText (first : string) (rest : list (separator * string)) :
  plainField first = true →
  forallb (λ sf, plainField (snd sf)) rest = true →
  JsString.split (JsString.replaceLineBreaks (reportText first rest))
  = first :: map snd rest.
Proof.
  revert first. induction rest as [|[sep f] rest IH]; intros first Hf Hall.
  - cbn [reportText map].
    assert (E : JsString.replaceLineBreaks first = first).
    { pose proof (replaceLineBreaks_plain first "" Hf) as E.
      now rewrite !append_empty_r in E. }
    rewrite E. now apply split_plain.
  - cbn [forallb snd] in Hall. apply andb_true_iff in Hall as [Hf' Hall].
    cbn [reportText map snd].
    rewrite replaceLineBreaks_plain by exact Hf.
    rewrite replaceLineBreaks_separator, split_plain_comma by exact Hf.
    now rewrite IH.
Qed.

Lemma reverse_involutive (s : string) : JsString.reverse (JsString.reverse s) = s.
Proof.
  unfold JsString.reverse.
  now rewrite list_ascii_of_string_of_list_ascii, rev_involutive,
    string_of_list_ascii_of_string.
Qed.

Lemma trimStart_solid (s : string) :
  startsWithWhiteSpace s = false → JsString.trimStart s = s.
Proof. destruct s as [|c s]; [reflexivity|]. cbn. now intros ->. Qed.

Lemma trim_solid (s : string) : solidEdges s = true → JsString.trim s = s.
Proof.
  unfold solidEdges, JsString.trim. intros H.
  apply andb_true_iff in H as [H1 H2]. apply negb_true_iff in H1, H2.
  now rewrite (trimStart_solid s H1), (trimStart_solid _ H2), reverse_involutive.
Qed.

(** X8. In a report that neither begins nor ends with white space, and
    whose fields hold no comma and no line break, every comma, line feed
    and carriage return with line feed separates two tokens: the token
    stream is the fields in order, with the line structure gone. *)
Theorem fields_are_tokens (first : string) (rest : list (separator * string)) :
  plainField first = true →
  forallb (λ sf, plainField (snd sf)) rest = true →
  solidEdges (reportText first rest) = true →
  tokens (reportText first rest) = first :: map snd rest.
Proof.
  intros Hf Hall Hs. unfold tokens. rewrite (trim_solid _ Hs).
  now apply split_reportText.
Qed.

Lemma fields_are_tokens_witness :
  tokens (reportText "SHT"
            [(Comma, "1"); (Comma, "Soil Stack"); (Comma, "Failed");
             (CarriageReturnLineFeed, "SHT"); (Comma, "2"); (Comma, "");
             (LineFeed, "x")])
  = ["SHT"; "1"; "Soil Stack"; "Failed"; "SHT"; "2"; ""; "x"].
Proof.
  exact (fields_are_tokens "SHT"
           [(Comma, "1"); (Comma, "Soil Stack"); (Comma, "Failed");
            (CarriageReturnLineFeed, "SHT"); (Comma, "2"); (Comma, "");
            (LineFeed, "x")] eq_refl eq_refl eq_refl).
Defined.

(** ** The poll scheduler, again *)

Section SchedulerLiveness.

Variable rev : revision.
Variable alertThreshold : float.

(** Something is pending, or an exception has left a callback. *)
Lemma pollState_pending (m : machine) : pollTimers (pollState m) ≠ ∅.
Proof.
  unfold pollState. cbn [pollTimers]. intros E.
  apply (not_elem_of_empty (C := gset nat) (nextHandle m)).
  rewrite <- E. apply elem_of_union_r, elem_of_singleton. reflexivity.
Qed.

Lemma processAndRearm_pending (text : string) (m : machine) :
  let m' := processAndRearm alertThreshold text m in
  uncaught m' = true ∨ pollTimers m' ≠ ∅.
Proof.
  cbn zeta. unfold processAndRearm.
  pose proof (processData_terminates alertThreshold text (accessory m)) as Ht.
  destruct (processData alertThreshold text (accessory m)); [right|left|contradiction].
  - apply pollState_pending.
  - reflexivity.
Qed.

Lemma step_pending (m : machine) (e : event) :
  uncaught m = true ∨ pollTimers m ≠ ∅ ∨ procTimers m ≠ ∅ →
  let m' := step rev alertThreshold m e in
  uncaught m' = true ∨ pollTimers m' ≠ ∅ ∨ procTimers m' ≠ ∅.
Proof.
  intros H. cbn zeta. unfold step. destruct (uncaught m) eqn:Hu; [now left|].
  destruct e as [|h|k c|k c|k|k|k].
  - right. left. apply pollState_pending.
  - unfold onPollTimeout. case_decide; [|rewrite Hu; exact H].
    right. right. cbn. intros E.
    apply (not_elem_of_empty (C := gset nat) (nextHandle m)).
    rewrite <- E. apply elem_of_union_r, elem_of_singleton. reflexivity.
  - unfold onResponse. repeat case_match; cbn; rewrite ?Hu; exact H.
  - unfold onData. repeat case_match; cbn; rewrite ?Hu; exact H.
  - unfold onEnd. repeat case_match; cbn; rewrite ?Hu; exact H.
  - unfold onError. repeat case_match; cbn; rewrite ?Hu; exact H.
  - unfold onProcTimeout. case_decide; [|rewrite Hu; exact H].
    repeat case_match;
      first [right; left; apply pollState_pending
            |match goal with
             | |- context [processAndRearm _ ?t ?m0] =>
                 destruct (processAndRearm_pending t m0) as [Hp|Hp];
                 [left; exact Hp|right; left; exact Hp]
             end].
Qed.

Lemma run_pending (evs : list event) (m : machine) :
  uncaught m = true ∨ pollTimers m ≠ ∅ ∨ procTimers m ≠ ∅ →
  let m' := run rev alertThreshold m evs in
  uncaught m' = true ∨ pollTimers m' ≠ ∅ ∨ procTimers m' ≠ ∅.
Proof.
  revert m. induction evs as [|e evs IH]; intros m H; [exact H|].
  apply IH, step_pending, H.
Qed.

(** X9. Once [getServices] has started the polling, it goes on whatever the
    device answers and whenever it does: unless a TypeError has left a
    callback, a trigger is pending after every event. *)
Theorem polling_goes_on (evs : list event) :
  let m := run rev alertThreshold initialMachine (GetServices :: evs) in
  uncaught m = false → (1 <= pendingTriggers m)%nat.
Proof.
  intros m Hu.
  assert (H : uncaught m = true ∨ pollTimers m ≠ ∅ ∨ procTimers m ≠ ∅).
  { subst m.
    change (run rev alertThreshold initialMachine (GetServices :: evs))
      with (run rev alertThreshold (pollState initialMachine) evs).
    apply run_pending. right. left. apply pollState_pending. }
  unfold pendingTriggers.
  assert (S : ∀ X : gset nat, X ≠ ∅ → size X ≠ 0%nat).
  { intros X HX. apply size_non_empty_iff. intros E. apply HX.
    now apply leibniz_equiv. }
  destruct H as [H | [H|H]]; [congruence| |]; apply S in H; lia.
Qed.



End SchedulerLiveness.


Lemma polling_goes_on_witness :
  (1 <= pendingTriggers
          (run StatusFault 90 initialMachine
             (GetServices :: [PollTimeout 0; Error 1; ProcTimeout 1; PollTimeout 2])))%nat.
Proof.
  apply (polling_goes_on StatusFault 90 [PollTimeout 0; Error 1; ProcTimeout 1; PollTimeout 2]).
  vm_compute. reflexivity.
Defined.

(** ** A cycle from the poll timer to the end of the timer callback *)






(** ** What HomeKit is told and what it is answered *)

(** The state the timer callback leaves is the one the event loop holds
    after the 3000 ms timer of the call. *)
Lemma timerCallback_state (rev : revision) (alertThreshold : float) (k : nat)
  (m : machine) :
  k ∈ procTimers m →
  accessory (onProcTimeout rev alertThreshold k m)
  = fst (timerCallback rev alertThreshold (default "" (rawData m !! k)) (accessory m)).
Proof.
  intros Hk. unfold onProcTimeout, timerCallback, processAndRearm.
  rewrite (decide_True _ _ Hk). cbn -[processData].
  destruct rev; [|destruct (deviceState (accessory m))];
    try destruct (processData _ _ _); reflexivity.
Qed.

(** X13. Every update the timer callback sends, but for the StatusFault of
    the humidity service of sensor 1, carries the value that the getter
    bound to the same characteristic answers on the state the callback
    leaves: what HomeKit is told and what it reads agree. *)
Theorem updates_agree_with_getters (rev : revision) (alertThreshold : float)
  (text : string) (st : state) (s : service) (c : characteristic) (v : hapValue) :
  In (s, c, v) (snd (timerCallback rev alertThreshold text st)) →
  (s, c) ≠ (humidSensor1Service, StatusFaultOf) →
  ∃ mth : method,
    getHandler rev s c = Some mth
    ∧ answer mth (fst (timerCallback rev alertThreshold text st)) = Some v.
Proof.
  unfold timerCallback.
  destruct rev; [|destruct (deviceState st) eqn:Ed];
    try destruct (processData alertThreshold text st) as [st'|st'|];
    cbn [fst snd In updatesOfIndexJs updatesOfStatusFault]; intros Hin Hne;
    repeat (destruct Hin as [Hin|Hin]; [injection Hin as <- <- <-|]);
    try contradiction; try (exfalso; apply Hne; reflexivity);
    eexists; (split; [reflexivity|]); cbn [answer]; try reflexivity.
  all: now rewrite Ed.
Qed.

Lemma updates_agree_with_getters_witness :
  ∃ mth : method,
    getHandler StatusFault tempSensor1Service StatusFaultOf = Some mth
    ∧ answer mth (fst (timerCallback StatusFault 90
                         "SHT,1,A,Failed,0,0,0,0%,0%,0%" initialState))
      = Some (FaultValue GENERAL_FAULT).
Proof.
  apply (updates_agree_with_getters StatusFault 90 "SHT,1,A,Failed,0,0,0,0%,0%,0%"
           initialState tempSensor1Service StatusFaultOf (FaultValue GENERAL_FAULT)).
  - vm_compute. right. right. right. left. reflexivity.
  - discriminate.
Defined.

(** X14. In the revision that reports StatusFault the getter bound to the
    StatusFault of the humidity service of sensor 1 is the one of sensor 2:
    after a cycle that parsed under NO_FAULT the callback sends the health
    of channel 1 for that characteristic, a read of it answers the health
    of channel 2, and the two differ exactly when the two channels differ
    in health. *)
Theorem humidity1_fault_read_from_sensor2 (alertThreshold : float) (text : string)
  (st st' : state) :
  deviceState st = NO_FAULT →
  processData alertThreshold text st = Normal st' →
  getHandler StatusFault humidSensor1Service StatusFaultOf = Some getHumid2FaultState
  ∧ In (humidSensor1Service, StatusFaultOf, FaultValue (sensor1State st'))
       (snd (timerCallback StatusFault alertThreshold text st))
  ∧ answer getHumid2FaultState (fst (timerCallback StatusFault alertThreshold text st))
    = Some (FaultValue (sensor2State st'))
  ∧ (answer getHumid2FaultState (fst (timerCallback StatusFault alertThreshold text st))
     = Some (FaultValue (sensor1State st'))
     ↔ sensor1State st' = sensor2State st').
Proof.
  intros Hd Hp. unfold timerCallback. rewrite Hd, Hp. cbn.
  split; [reflexivity|]. split; [tauto|]. split; [reflexivity|].
  split; [intros E; now injection E|now intros ->].
Qed.

Lemma humidity1_fault_read_from_sensor2_witness :
  let text := "SHT,1,A,Failed,0,0,0,0%,0%,0%" in
  let st' := setSensor1State GENERAL_FAULT initialState in
  In (humidSensor1Service, StatusFaultOf, FaultValue GENERAL_FAULT)
     (snd (timerCallback StatusFault 90 text initialState))
  ∧ answer getHumid2FaultState (fst (timerCallback StatusFault 90 text initialState))
    = Some (FaultValue NO_FAULT).
Proof.
  cbn zeta.
  destruct (humidity1_fault_read_from_sensor2 90 "SHT,1,A,Failed,0,0,0,0%,0%,0%"
              initialState (setSensor1State GENERAL_FAULT initialState)
              eq_refl eq_refl) as (_ & Hin & Ha & _).
  split; [exact Hin|exact Ha].
Defined.

(** ** What is assigned where *)

Lemma loopBody_keeps_alert_and_device (sensorData : list string)
  (i thisSensor : nat) (st : state) :
  match loopBody sensorData i thisSensor st with
  | Normal (_, _, st') | TypeError st' =>
      AlertState st' = AlertState st ∧ deviceState st' = deviceState st
  | OutOfFuel => True
  end.
Proof.
  unfold loopBody. repeat case_match; simplify_eq; split; reflexivity.
Qed.

Lemma scanLoop_keeps_alert_and_device (sensorData : list string) (fuel : nat) :
  ∀ (i thisSensor : nat) (st : state),
    let st' := stateAfter (scanLoop fuel sensorData i thisSensor st) st in
    AlertState st' = AlertState st ∧ deviceState st' = deviceState st.
Proof.
  induction fuel as [|fuel IH]; intros i thisSensor st; cbn [scanLoop stateAfter];
    [split; reflexivity|].
  pose proof (loopBody_keeps_alert_and_device sensorData i thisSensor st) as Hb.
  destruct (loopBody sensorData i thisSensor st) as [[[i' ts'] st1]|st1|];
    cbn [stateAfter]; [|exact Hb|split; reflexivity].
  destruct Hb as [Ha Hd].
  destruct (S i' <? length sensorData)%nat; cbn [stateAfter]; [|split; assumption].
  specialize (IH (S i') ts' st1). cbn zeta in IH. destruct IH as [Ha' Hd'].
  destruct (scanLoop fuel sensorData (S i') ts' st1) as [s|s|]; cbn [stateAfter] in *;
    split; congruence.
Qed.

Lemma alertStep_keeps_device (alertThreshold : float) (st : state) :
  deviceState (alertStep alertThreshold st) = deviceState st.
Proof. unfold alertStep. repeat case_match; reflexivity. Qed.

Lemma processData_keeps_device (alertThreshold : float) (report : string)
  (st : state) :
  deviceState (stateAfter (processData alertThreshold report st) st) = deviceState st.
Proof.
  destruct (scanLoop_keeps_alert_and_device (tokens report)
              (S (length (tokens report))) 0 0 st) as [_ Hd].
  fold (scanRecords (tokens report) st) in Hd. unfold processData.
  destruct (scanRecords (tokens report) st) as [s|s|]; cbn [stateAfter] in *;
    rewrite ?alertStep_keeps_device; auto.
Qed.

(** X15. The scan assigns the fields of the channels and nothing else:
    however it ends, the alert state and the device fault are as before
    it, so the alert changes through the alert state machine alone and the
    device fault is never assigned by what a report says. *)
Theorem scan_keeps_alert_and_device (alertThreshold : float) (report : string)
  (st : state) :
  let scanned := stateAfter (scanRecords (tokens report) st) st in
  let after := stateAfter (processData alertThreshold report st) st in
  AlertState scanned = AlertState st
  ∧ deviceState scanned = deviceState st
  ∧ deviceState after = deviceState st
  ∧ (after = alertStep alertThreshold scanned ∨ after = scanned).
Proof.
  cbn zeta.
  destruct (scanLoop_keeps_alert_and_device (tokens report)
              (S (length (tokens report))) 0 0 st) as [Ha Hd].
  fold (scanRecords (tokens report) st) in Ha, Hd.
  split; [exact Ha|]. split; [exact Hd|].
  unfold processData.
  destruct (scanRecords (tokens report) st) as [s|s|]; cbn [stateAfter] in *.
  - split; [now rewrite alertStep_keeps_device|now left].
  - split; [exact Hd|now right].
  - split; [reflexivity|now right].
Qed.

Section EventFrame.

Variable rev : revision.
Variable alertThreshold : float.

(** X16. The timer callback alone assigns the alert state and the fields
    of the channels: a call of [getServices], the expiry of the poll timer
    and every HTTP callback leave them as they were. In index.js these
    events assign nothing at all; in the revision that reports StatusFault
    the response and the error callback assign [deviceState], between the
    poll timer and the 3000 ms timer. *)
Theorem only_timer_callback_assigns_readings (m : machine) (e : event) :
  (∀ k, e ≠ ProcTimeout k) →
  let st := accessory m in
  let st' := accessory (step rev alertThreshold m e) in
  st' = setDeviceState (deviceState st') st
  ∧ (rev = IndexJs → st' = st)
  ∧ ((∀ k c, e ≠ Response k c) → (∀ k, e ≠ Error k) → st' = st).
Proof.
  intros Hne. cbn zeta. unfold step.
  assert (R : accessory m = setDeviceState (deviceState (accessory m)) (accessory m))
    by (destruct (accessory m); reflexivity).
  destruct (uncaught m); [repeat split; auto|].
  destruct e as [|h|k c|k c|k|k|k].
  - repeat split; auto.
  - unfold onPollTimeout. case_decide; repeat split; auto.
  - unfold onResponse, withAccessory, withRequests.
    destruct (requests m !! k) as [[]|]; [repeat split; auto| |repeat split; auto].
    destruct rev; cbn; (split; [auto|]); split; try reflexivity; try discriminate.
    intros H. now specialize (H k c).
  - unfold onData. repeat case_match; repeat split; auto.
  - unfold onEnd. repeat case_match; repeat split; auto.
  - unfold onError, withAccessory, withRequests.
    destruct (requests m !! k); [|repeat split; auto].
    destruct rev; cbn; (split; [auto|]); split; try reflexivity; try discriminate.
    intros _ H. now specialize (H k).
  - now specialize (Hne k).
Qed.

End EventFrame.

Lemma only_timer_callback_assigns_readings_witness :
  let m := run StatusFault 90 initialMachine
             [GetServices; PollTimeout 0; Response 1 200;
              Data 1 "SHT,1,A,Detected,20,20,20,91%,91%,91%"; End_ 1; ProcTimeout 1;
              PollTimeout 2] in
  let st := accessory m in
  let st' := accessory (step StatusFault 90 m (Response 3 500)) in
  deviceState st' = GENERAL_FAULT
  ∧ st' = setDeviceState (deviceState st') st
  ∧ (StatusFault = IndexJs → st' = st)
  ∧ ((∀ k c, Response 3 500 ≠ Response k c) → (∀ k, Response 3 500 ≠ Error k) →
     st' = st).
Proof.
  cbn zeta. split; [vm_compute; reflexivity|].
  apply (only_timer_callback_assigns_readings StatusFault 90
           (run StatusFault 90 initialMachine
              [GetServices; PollTimeout 0; Response 1 200;
               Data 1 "SHT,1,A,Detected,20,20,20,91%,91%,91%"; End_ 1; ProcTimeout 1;
               PollTimeout 2])
           (Response 3 500)).
  intros k. discriminate.
Defined.

(** X17. index.js never marks the device faulty: whatever the events and
    their order, [deviceState] is NO_FAULT, the value the constructor gave
    it. *)
Theorem indexjs_never_faults_device (alertThreshold : float) (evs : list event) :
  deviceState (accessory (run IndexJs alertThreshold initialMachine evs)) = NO_FAULT.
Proof.
  assert (G : ∀ m, deviceState (accessory m) = NO_FAULT →
                   deviceState (accessory (run IndexJs alertThreshold m evs)) = NO_FAULT).
  { induction evs as [|e evs IH]; intros m Hm; [exact Hm|].
    cbn [run fold_left]. apply IH. unfold step.
    destruct (uncaught m); [exact Hm|].
    destruct e as [|h|k c|k c|k|k|k].
    - exact Hm.
    - unfold onPollTimeout. case_decide; exact Hm.
    - unfold onResponse. repeat case_match; exact Hm.
    - unfold onData. repeat case_match; exact Hm.
    - unfold onEnd. repeat case_match; exact Hm.
    - unfold onError. repeat case_match; exact Hm.
    - unfold onProcTimeout. case_decide; [|exact Hm].
      unfold processAndRearm. cbn [accessory].
      pose proof (processData_keeps_device alertThreshold
                    (default "" (rawData m !! k)) (accessory m)) as Hd.
      destruct (processData alertThreshold (default "" (rawData m !! k)) (accessory m));
        cbn [stateAfter] in Hd; cbn; congruence. }
  apply G. reflexivity.
Qed.
